(** * Authorization guards of the Telegram group manager bot

    A shallow embedding of [utils/decorators.py]: the decorators that wrap a
    command handler with an authentication, permission, access-level,
    chat-admin, owner, rate-limit or audit-log check.

    Each decorator is a function from handlers to handlers.  A handler is an
    effectful computation: it reads the incoming update, reads and writes the
    caller's [user_data] dictionary, may ask the remote API for a membership
    status, may reply to the caller, and either returns a value or raises.
    The effects are modelled by a small state, writer and exception monad
    [M]; the writer part is the chronological trace of observable events:
    log lines, replies, membership lookups and calls of the wrapped handler.

    The keyboard builder and the keyboard factories of [utils/keyboards.py]
    and the start-up of [main.py] follow the guards: the builder is the list
    of its rows, a method that returns [self] a function on it.  Arguments
    with a default in the source are always given here.

    Two things are taken from outside the module as they are: the update
    always carries the message that [reply_text] answers, and the readings
    of the clock are exact numbers.  What is raised is either an instance of
    [Exception], which the [except] clauses catch, or an exception outside
    [Exception], which they let through. *)

From Stdlib Require Import QArith Lqa.
From stdpp Require Import gmap strings list pretty.

Local Open Scope string_scope.
Local Open Scope list_scope.
Local Open Scope stdpp_scope.
Local Open Scope Z_scope.

(** ** Data model *)

(** [telegram.User]: the attributes the decorators read. *)
Record User := { user_id : Z; username : option string }.

(** [telegram.Chat]: [chat_type] is the [type] attribute. *)
Record Chat := { chat_id : Z; chat_type : string }.

(** [telegram.Update].  Only [effective_user] and [effective_chat] are
    optional here; [update.message] is taken to be present, so that
    [update.message.reply_text] always has a message to answer. *)
Record Update := {
  effective_user : option User;
  effective_chat : option Chat
}.

(** [telegram.ChatMember]: the decorators read its [status] only. *)
Record ChatMember := { status : string }.

(** An instance of a subclass of Python's [Exception]: these are the
    exceptions an [except Exception] clause catches. *)
Record Exn := { exn_class : string; exn_text : string }.

(** An exception that is not an instance of [Exception]: a
    [BaseException] such as [asyncio.CancelledError], [KeyboardInterrupt] or
    [SystemExit].  An [except Exception] clause does not catch it. *)
Record BaseExn := { base_class : string }.

(** The result of running a piece of Python code. *)
Inductive Res (A : Type) : Type :=
| Returned (a : A)
| Raised (e : Exn)
| RaisedBase (b : BaseExn).
Arguments Returned {A} a.
Arguments Raised {A} e.
Arguments RaisedBase {A} b.

(** A handler's return value; [None] is Python's [None]. *)
Definition value : Type := option Z.

(** [context.user_data], the per-caller dictionary, seen through the keys
    the decorators use.  A key that is absent from the dictionary is [None].
    Timestamps are the readings of [time.time()], taken as exact numbers. *)
Record UserData := {
  authenticated_user_id : option Z;
  authenticated_user_username : option (option string);
  permissions : option (gset string);
  access_level : option Z;
  rate_limits : option (gmap string (list Q))
}.

Definition empty_user_data : UserData :=
  {| authenticated_user_id := None;
     authenticated_user_username := None;
     permissions := None;
     access_level := None;
     rate_limits := None |}.

(** What a handler sees of the world outside the update and [user_data]:
    the answer of [context.bot.get_chat_member], the reading of the clock,
    and the order in which the interpreter iterates a set of strings. *)
Record Runtime := {
  get_chat_member_result : Z → Z → Res ChatMember;
  time_time : Q;
  set_iteration : gset string → list string
}.

Inductive LogLevel := INFO | WARNING | ERROR.

(** The observable events of a run, in the order they happen. *)
Inductive Event :=
| ELog (level : LogLevel) (text : string)
| EReply (text : string) (parse_mode : option string)
| EGetChatMember (chat user : Z)
| ECall (name : string).

(** ** The effect monad *)

Definition M (A : Type) : Type :=
  Runtime → UserData → Res A * UserData * list Event.

Definition ret {A} (a : A) : M A := λ _ ud, (Returned a, ud, []).

Definition bind {A B} (m : M A) (k : A → M B) : M B :=
  λ rt ud,
    match m rt ud with
    | (Returned a, ud1, t1) =>
        let '(r, ud2, t2) := k a rt ud1 in (r, ud2, t1 ++ t2)
    | (Raised e, ud1, t1) => (Raised e, ud1, t1)
    | (RaisedBase b, ud1, t1) => (RaisedBase b, ud1, t1)
    end.

#[global] Instance M_ret : MRet M := @ret.
#[global] Instance M_bind : MBind M := λ A B k m, bind m k.

Definition raise {A} (e : Exn) : M A := λ _ ud, (Raised e, ud, []).

(** [raise b] for an exception outside [Exception]. *)
Definition raise_base {A} (b : BaseExn) : M A := λ _ ud, (RaisedBase b, ud, []).

(** [try: body except Exception as e: handler e].  What is not an
    [Exception] goes through. *)
Definition try_except {A} (body : M A) (handler : Exn → M A) : M A :=
  λ rt ud,
    match body rt ud with
    | (Returned a, ud1, t1) => (Returned a, ud1, t1)
    | (Raised e, ud1, t1) =>
        let '(r, ud2, t2) := handler e rt ud1 in (r, ud2, t1 ++ t2)
    | (RaisedBase b, ud1, t1) => (RaisedBase b, ud1, t1)
    end.

Definition emit (e : Event) : M unit := λ _ ud, (Returned tt, ud, [e]).
Definition get_user_data : M UserData := λ _ ud, (Returned ud, ud, []).
Definition put_user_data (ud : UserData) : M unit := λ _ _, (Returned tt, ud, []).
Definition runtime : M Runtime := λ rt ud, (Returned rt, ud, []).

Definition logger_info (text : string) : M unit := emit (ELog INFO text).
Definition logger_warning (text : string) : M unit := emit (ELog WARNING text).
Definition logger_error (text : string) : M unit := emit (ELog ERROR text).

(** [await update.message.reply_text(text, parse_mode=...)]. *)
Definition reply_text (text : string) (parse_mode : option string) : M unit :=
  emit (EReply text parse_mode).

(** [await context.bot.get_chat_member(chat_id, user_id)]. *)
Definition get_chat_member (chat user : Z) : M ChatMember :=
  emit (EGetChatMember chat user);;
  rt ← runtime;
  match get_chat_member_result rt chat user with
  | Returned m => mret m
  | Raised e => raise e
  | RaisedBase b => raise_base b
  end.

(** A handler: a named coroutine of the update (the context is the monad). *)
Record Handler := { h_name : string; h_body : Update → M value }.

(** [await func(update, context)]: the call itself is recorded. *)
Definition call (func : Handler) (update : Update) : M value :=
  emit (ECall (h_name func));; h_body func update.

(** ** Formatting *)

(** [str(n)] for an integer. *)
Definition str_int (n : Z) : string := pretty n.

(** [str(x)] for an optional string: [None] prints as its name. *)
Definition str_opt (o : option string) : string := default "None" o.

(** [sep.join(l)]. *)
Definition join (sep : string) (l : list string) : string := String.concat sep l.

(** [x in l] for a list of strings. *)
Definition str_in (x : string) (l : list string) : bool := bool_decide (x ∈ l).

(** ** The decorators *)

Definition require_authentication (func : Handler) : Handler :=
  {| h_name := h_name func;
     h_body := λ update,
       match effective_user update with
       | None =>
           logger_warning "Authentication failed: No user object found";;
           reply_text "❌ Authentication failed. Please try again." None;;
           mret None
       | Some user =>
           ud ← get_user_data;
           put_user_data
             {| authenticated_user_id := Some (user_id user);
                authenticated_user_username := Some (username user);
                permissions := permissions ud;
                access_level := access_level ud;
                rate_limits := rate_limits ud |};;
           logger_info ("User " +:+ str_int (user_id user) +:+ " ("
                        +:+ str_opt (username user) +:+ ") authenticated successfully");;
           call func update
       end |}.

Definition require_permission (permission : string) (func : Handler) : Handler :=
  {| h_name := h_name func;
     h_body := λ update,
       match effective_user update with
       | None =>
           logger_warning "Permission check failed: No user object found";;
           reply_text "❌ You are not authorized to perform this action." None;;
           mret None
       | Some user =>
           ud ← get_user_data;
           let user_permissions := default ∅ (permissions ud) in
           if bool_decide (permission ∉ user_permissions) then
             logger_warning ("User " +:+ str_int (user_id user)
                             +:+ " lacks required permission: " +:+ permission);;
             reply_text ("❌ You don't have permission to execute this command: `"
                         +:+ permission +:+ "`") (Some "Markdown");;
             mret None
           else
             logger_info ("User " +:+ str_int (user_id user)
                          +:+ " has permission: " +:+ permission);;
             call func update
       end |}.

Definition require_permissions (permissions_required : list string)
    (require_all : bool) (func : Handler) : Handler :=
  {| h_name := h_name func;
     h_body := λ update,
       match effective_user update with
       | None =>
           logger_warning "Permission check failed: No user object found";;
           reply_text "❌ You are not authorized to perform this action." None;;
           mret None
       | Some user =>
           ud ← get_user_data;
           rt ← runtime;
           let user_permissions := default ∅ (permissions ud) in
           let required_set : gset string := list_to_set permissions_required in
           let user_set : gset string := user_permissions in
           let '(has_permission, error_msg) :=
             if require_all then
               let missing := required_set ∖ user_set in
               (bool_decide (required_set ⊆ user_set),
                "Missing permissions: " +:+ join ", " (set_iteration rt missing))
             else
               (bool_decide (required_set ∩ user_set ≠ ∅),
                "Requires one of: " +:+ join ", " permissions_required) in
           if negb has_permission then
             logger_warning ("User " +:+ str_int (user_id user)
                             +:+ " permission check failed: " +:+ error_msg);;
             reply_text ("❌ " +:+ error_msg) (Some "Markdown");;
             mret None
           else
             logger_info ("User " +:+ str_int (user_id user)
                          +:+ " passed permission check");;
             call func update
       end |}.

Definition require_admin (func : Handler) : Handler :=
  {| h_name := h_name func;
     h_body := λ update,
       match effective_user update, effective_chat update with
       | Some user, Some chat =>
           try_except
             (member ← get_chat_member (chat_id chat) (user_id user);
              let is_admin := str_in (status member) ["creator"; "administrator"] in
              if negb is_admin then
                logger_warning ("User " +:+ str_int (user_id user)
                                +:+ " is not an admin in chat "
                                +:+ str_int (chat_id chat));;
                reply_text "❌ You must be an admin to use this command." None;;
                mret None
              else
                logger_info ("User " +:+ str_int (user_id user)
                             +:+ " is admin in chat " +:+ str_int (chat_id chat));;
                call func update)
             (λ e,
                logger_error ("Error checking admin status: " +:+ exn_text e);;
                reply_text "❌ Error verifying admin status." None;;
                mret None)
       | _, _ =>
           logger_warning "Admin check failed: No user or chat object found";;
           reply_text "❌ Unable to verify admin status." None;;
           mret None
       end |}.

(** The label table of [require_access_level]. *)
Definition level_names : gmap Z string :=
  <[0 := "User"]> (<[1 := "Moderator"]> (<[2 := "Administrator"]>
    (<[3 := "Super Admin"]> ∅))).

Definition require_access_level (level : Z) (func : Handler) : Handler :=
  {| h_name := h_name func;
     h_body := λ update,
       match effective_user update with
       | None =>
           logger_warning "Access level check failed: No user object found";;
           reply_text "❌ Unable to verify access level." None;;
           mret None
       | Some user =>
           ud ← get_user_data;
           let user_level := default 0 (access_level ud) in
           if bool_decide (user_level < level) then
             let required_name := default "Unknown" (level_names !! level) in
             logger_warning ("User " +:+ str_int (user_id user)
                             +:+ " access denied: requires level " +:+ str_int level);;
             reply_text ("❌ This action requires " +:+ required_name
                         +:+ " access level.") None;;
             mret None
           else
             logger_info ("User " +:+ str_int (user_id user)
                          +:+ " passed access level check (level: "
                          +:+ str_int user_level +:+ ")");;
             call func update
       end |}.

Definition require_group_admin (func : Handler) : Handler :=
  {| h_name := h_name func;
     h_body := λ update,
       match effective_user update, effective_chat update with
       | Some user, Some chat =>
           if negb (str_in (chat_type chat) ["group"; "supergroup"]) then
             logger_warning ("Command used in non-group chat: " +:+ chat_type chat);;
             reply_text "❌ This command can only be used in groups." None;;
             mret None
           else
             try_except
               (member ← get_chat_member (chat_id chat) (user_id user);
                let is_admin := str_in (status member) ["creator"; "administrator"] in
                if negb is_admin then
                  logger_warning ("User " +:+ str_int (user_id user)
                                  +:+ " is not an admin in group "
                                  +:+ str_int (chat_id chat));;
                  reply_text "❌ You must be a group admin to use this command." None;;
                  mret None
                else
                  logger_info ("User " +:+ str_int (user_id user)
                               +:+ " verified as group admin in "
                               +:+ str_int (chat_id chat));;
                  call func update)
               (λ e,
                  logger_error ("Error verifying group admin: " +:+ exn_text e);;
                  reply_text "❌ Error verifying admin status." None;;
                  mret None)
       | _, _ =>
           logger_warning "Group admin check failed: Invalid user or chat object";;
           reply_text "❌ Could not verify group admin status." None;;
           mret None
       end |}.

(** In [require_owner] the ownership test either leaves the wrapper (it has
    replied and returns [None]) or falls through to the call of the
    handler, which stands after the [try] statement. *)
Inductive Flow := Leave | FallThrough.

Definition require_owner (owner_id : option Z) (func : Handler) : Handler :=
  {| h_name := h_name func;
     h_body := λ update,
       match effective_user update with
       | None =>
           logger_warning "Owner check failed: No user object found";;
           reply_text "❌ Could not verify ownership." None;;
           mret None
       | Some user =>
           flow ←
             match owner_id with
             | Some owner =>
                 if bool_decide (user_id user ≠ owner) then
                   logger_warning ("User " +:+ str_int (user_id user)
                                   +:+ " is not the owner");;
                   reply_text "❌ Only the owner can execute this command." None;;
                   mret Leave
                 else mret FallThrough
             | None =>
                 match effective_chat update with
                 | Some chat =>
                     try_except
                       (member ← get_chat_member (chat_id chat) (user_id user);
                        if bool_decide (status member ≠ "creator") then
                          logger_warning ("User " +:+ str_int (user_id user)
                                          +:+ " is not group creator in "
                                          +:+ str_int (chat_id chat));;
                          reply_text
                            "❌ Only the group creator can execute this command." None;;
                          mret Leave
                        else mret FallThrough)
                       (λ e,
                          logger_error ("Error verifying group creator: "
                                        +:+ exn_text e);;
                          reply_text "❌ Error verifying ownership." None;;
                          mret Leave)
                 | None => mret FallThrough
                 end
             end;
           match flow with
           | Leave => mret None
           | FallThrough =>
               logger_info ("User " +:+ str_int (user_id user)
                            +:+ " verified as owner");;
               call func update
           end
       end |}.

(** [x < y] on timestamps, as a boolean. *)
Definition Qltb (x y : Q) : bool := negb (Qle_bool y x).

(** Assignment to [context.user_data["rate_limits"]]. *)
Definition set_rate_limits (limits : gmap string (list Q)) (ud : UserData)
    : UserData :=
  {| authenticated_user_id := authenticated_user_id ud;
     authenticated_user_username := authenticated_user_username ud;
     permissions := permissions ud;
     access_level := access_level ud;
     rate_limits := Some limits |}.

(** [context.user_data["rate_limits"]] once the key is known to exist. *)
Definition the_rate_limits : M (gmap string (list Q)) :=
  ud ← get_user_data; mret (default ∅ (rate_limits ud)).

(** [context.user_data["rate_limits"][name] = calls]; the list [calls] of
    the source is this entry itself, so that the slice assignment and the
    [append] both write it. *)
Definition store_calls (name : string) (calls : list Q) : M unit :=
  ud ← get_user_data;
  put_user_data (set_rate_limits (<[name := calls]> (default ∅ (rate_limits ud))) ud).

Definition rate_limit (max_calls period : Z) (func : Handler) : Handler :=
  {| h_name := h_name func;
     h_body := λ update,
       match effective_user update with
       | None => mret None
       | Some user =>
           ud ← get_user_data;
           match rate_limits ud with
           | None => put_user_data (set_rate_limits ∅ ud)
           | Some _ => mret tt
           end;;
           let func_name := h_name func in
           rt ← runtime;
           let now := time_time rt in
           limits ← the_rate_limits;
           match limits !! func_name with
           | None => store_calls func_name []
           | Some _ => mret tt
           end;;
           limits ← the_rate_limits;
           let calls :=
             List.filter (λ call_time, Qltb (now - call_time) (inject_Z period))
                         (default [] (limits !! func_name)) in
           store_calls func_name calls;;
           if bool_decide (max_calls ≤ Z.of_nat (length calls)) then
             logger_warning ("Rate limit exceeded for user "
                             +:+ str_int (user_id user) +:+ " on " +:+ func_name);;
             reply_text "⏳ You're sending too many requests. Please wait a moment."
                        None;;
             mret None
           else
             store_calls func_name (calls ++ [now]);;
             call func update
       end |}.

(** [s.upper()], for the ASCII letters. *)
Definition ascii_upper (a : Ascii.ascii) : Ascii.ascii :=
  let n := Ascii.nat_of_ascii a in
  if ((97 <=? n)%nat && (n <=? 122)%nat)%bool
  then Ascii.ascii_of_nat (n - 32) else a.

Fixpoint str_upper (s : string) : string :=
  match s with
  | EmptyString => EmptyString
  | String a s' => String (ascii_upper a) (str_upper s')
  end.

(** Reading an attribute of [None]. *)
Definition none_has_no_attribute (attr : string) : Exn :=
  {| exn_class := "AttributeError";
     exn_text := "'NoneType' object has no attribute '" +:+ attr +:+ "'" |}.

Definition log_action (action_type : string) (func : Handler) : Handler :=
  {| h_name := h_name func;
     h_body := λ update,
       let user := effective_user update in
       let chat := effective_chat update in
       id_text ←
         match user with
         | Some u => mret (str_int (user_id u))
         | None => raise (none_has_no_attribute "id")
         end;
       logger_info ("[" +:+ str_upper action_type +:+ "] User: " +:+ id_text +:+ " ("
                    +:+ match user with
                        | Some u => str_opt (username u)
                        | None => "Unknown"
                        end
                    +:+ ") " +:+ "Chat: "
                    +:+ match chat with
                        | Some c => str_int (chat_id c)
                        | None => "Unknown"
                        end
                    +:+ " Function: " +:+ h_name func);;
       call func update |}.

(** ** The guards as one family *)

(** The decorators of the module with their configuration. *)
Inductive Guard :=
| Authentication
| Permission (permission : string)
| Permissions (permissions_required : list string) (require_all : bool)
| Admin
| AccessLevel (level : Z)
| GroupAdmin
| Owner (owner_id : option Z)
| RateLimit (max_calls period : Z)
| LogAction (action_type : string).

Definition decorate (g : Guard) : Handler → Handler :=
  match g with
  | Authentication => require_authentication
  | Permission p => require_permission p
  | Permissions ps all => require_permissions ps all
  | Admin => require_admin
  | AccessLevel l => require_access_level l
  | GroupAdmin => require_group_admin
  | Owner o => require_owner o
  | RateLimit n t => rate_limit n t
  | LogAction a => log_action a
  end.

(** Running a guarded handler on one update. *)
Definition run (g : Guard) (func : Handler) (update : Update)
    (rt : Runtime) (ud : UserData) : Res value * UserData * list Event :=
  h_body (decorate g func) update rt ud.

(** ** Observations on a run *)

Definition is_call (e : Event) : bool :=
  match e with ECall _ => true | _ => false end.
Definition is_lookup (e : Event) : bool :=
  match e with EGetChatMember _ _ => true | _ => false end.

(** The handler was invoked: some call is in the trace. *)
Definition invoked (tr : list Event) : bool := existsb is_call tr.
(** The texts sent to the caller, in order. *)
Definition replies (tr : list Event) : list string :=
  omap (λ e, match e with EReply text _ => Some text | _ => None end) tr.
(** A membership lookup was made. *)
Definition looked_up (tr : list Event) : bool := existsb is_lookup tr.

(** A handler that does nothing and returns [None]. *)
Definition idle (name : string) : Handler :=
  {| h_name := name; h_body := λ _, mret None |}.

(** An update that carries a caller. *)
Definition with_user (user : User) (chat : option Chat) : Update :=
  {| effective_user := Some user; effective_chat := chat |}.

(** An update that carries no caller. *)
Definition without_user (chat : option Chat) : Update :=
  {| effective_user := None; effective_chat := chat |}.

(** The caller's history for an action: the list under
    [user_data["rate_limits"][name]], empty when a key is absent. *)
Definition history (name : string) (ud : UserData) : list Q :=
  default [] (rate_limits ud ≫= (.!! name)).

(** Successive updates handled one after the other on the same
    [user_data], each at its own runtime; the traces are returned in order. *)
Fixpoint serve (h : Handler) (update : Update) (rts : list Runtime)
    (ud : UserData) : list (list Event) * UserData :=
  match rts with
  | [] => ([], ud)
  | rt :: rts' =>
      let '(_, ud1, tr) := h_body h update rt ud in
      let '(trs, ud2) := serve h update rts' ud1 in
      (tr :: trs, ud2)
  end.

(** The guards whose check needs the chat as well as the caller. *)
Definition needs_chat (g : Guard) : bool :=
  match g with Admin | GroupAdmin => true | _ => false end.

(** The identity a guard needs is absent from the update. *)
Definition identity_missing (g : Guard) (update : Update) : Prop :=
  effective_user update = None
  ∨ (needs_chat g = true ∧ effective_chat update = None).

(** The specification's sentence on missing identities, as it is worded:
    every guard denies with a reply, none raises, none returns silently. *)
Definition missing_identity_always_answered : Prop :=
  ∀ (g : Guard) (func : Handler) (update : Update) (rt : Runtime) (ud : UserData),
    identity_missing g update →
    let out := run g func update rt ud in
    out.1.1 = Returned None ∧ invoked out.2 = false ∧ replies out.2 ≠ [].

(** A handler whose own outcome cannot be taken for a denial: it sends no
    reply and does not return [None].  On such a handler every reply in the
    trace is the guard's, and so is a result of [None]. *)
Definition distinct_from_denial (func : Handler) : Prop :=
  ∀ (update : Update) (rt : Runtime) (ud : UserData),
    replies (h_body func update rt ud).2 = []
    ∧ (h_body func update rt ud).1.1 ≠ Returned None.

(** A handler that sends nothing and returns a value that is not [None]. *)
Definition marker (name : string) : Handler :=
  {| h_name := name; h_body := λ _, mret (Some 1) |}.

(** The handler raises no [Exception]. *)
Definition raises_no_exception (func : Handler) : Prop :=
  ∀ (update : Update) (rt : Runtime) (ud : UserData) (e : Exn),
    (h_body func update rt ud).1.1 ≠ Raised e.

(** The guards that call the handler inside their [try] statement. *)
Definition calls_inside_try (g : Guard) : bool :=
  match g with Admin | GroupAdmin => true | _ => false end.

(** A deny outcome, read off a run: the guard has answered the caller, or
    the wrapper has returned [None]. *)
Definition deny_outcome (out : Res value * UserData * list Event) : Prop :=
  replies out.2 ≠ [] ∨ out.1.1 = Returned None.

(** The specification's sentence on deny outcomes, as it is worded: the
    handler is not invoked and the caller always gets a reply. *)
Definition deny_always_final : Prop :=
  ∀ (g : Guard) (func : Handler) (update : Update) (rt : Runtime) (ud : UserData),
    distinct_from_denial func →
    let out := run g func update rt ud in
    deny_outcome out → invoked out.2 = false ∧ replies out.2 ≠ [].

(** The lookup did not answer: it raised. *)
Definition lookup_raises (rt : Runtime) (chat : Chat) (user : User) : Prop :=
  ∀ member,
    get_chat_member_result rt (chat_id chat) (user_id user) ≠ Returned member.

(** The reply of [require_permission] when [p] is missing. *)
Definition permission_denied_text (p : string) : string :=
  "❌ You don't have permission to execute this command: `" +:+ p +:+ "`".

(** The reply of [require_access_level] for a level's label. *)
Definition access_denied_text (label : string) : string :=
  "❌ This action requires " +:+ label +:+ " access level.".

(** The reply of [rate_limit] when the limit is reached. *)
Definition throttled_text : string :=
  "⏳ You're sending too many requests. Please wait a moment.".

(** A runtime whose remote lookup answers [member], whose clock reads
    [now], and which iterates a set in the order of [elements]. *)
Definition plain_runtime (member : Res ChatMember) (now : Q) : Runtime :=
  {| get_chat_member_result := λ _ _, member;
     time_time := now;
     set_iteration := elements |}.

(** The handler leaves the history of its own action as it finds it. *)
Definition keeps_history (func : Handler) : Prop :=
  ∀ (update : Update) (rt : Runtime) (ud : UserData),
    history (h_name func) (h_body func update rt ud).1.2
    = history (h_name func) ud.

(** The timestamps of [h] that [rate_limit] keeps at time [now]. *)
Definition recent (now : Q) (period : Z) (h : list Q) : list Q :=
  List.filter (λ call_time, Qltb (now - call_time) (inject_Z period)) h.

(** The specification's sentence on a lookup that raises, as it is worded:
    whatever is raised, the guard catches it, answers with its fixed reply,
    does not invoke the handler and returns. *)
Definition lookup_failure_always_caught : Prop :=
  ∀ (func : Handler) (user : User) (chat : Chat) (rt : Runtime) (ud : UserData),
    lookup_raises rt chat user →
    let update := with_user user (Some chat) in
    let caught (out : Res value * UserData * list Event) (reply : string) :=
      out.1.1 = Returned None ∧ invoked out.2 = false
      ∧ replies out.2 = [reply] in
    caught (run Admin func update rt ud) "❌ Error verifying admin status."
    ∧ (chat_type chat = "group" ∨ chat_type chat = "supergroup" →
       caught (run GroupAdmin func update rt ud)
              "❌ Error verifying admin status.")
    ∧ caught (run (Owner None) func update rt ud) "❌ Error verifying ownership.".

(** ** Keyboards: [utils/keyboards.py] *)

(** [telegram.InlineKeyboardButton], by the four arguments the module
    passes to it. *)
Record InlineKeyboardButton := {
  text : string;
  callback_data : option string;
  url : option string;
  switch_inline_query : option string
}.

(** [telegram.InlineKeyboardMarkup]: the rows of buttons it was built from. *)
Record InlineKeyboardMarkup := {
  inline_keyboard : list (list InlineKeyboardButton)
}.

(** [KeyboardBuilder]: the object's only attribute.  A method that returns
    [self] is a function from the builder to the builder. *)
Record KeyboardBuilder := {
  buttons : list (list InlineKeyboardButton)
}.

(** [KeyboardBuilder()]. *)
Definition new_builder : KeyboardBuilder := {| buttons := [] |}.

(** [rows[-1].append(b)], for a list of rows that is not empty: both places
    that do it have just made sure of a last row. *)
Definition append_to_last_row (rows : list (list InlineKeyboardButton))
    (b : InlineKeyboardButton) : list (list InlineKeyboardButton) :=
  alter (λ r, r ++ [b]) (Nat.pred (length rows)) rows.

(** [len(rows[-1]) > 0], read only when [rows] is not empty. *)
Definition last_row_filled (rows : list (list InlineKeyboardButton)) : bool :=
  bool_decide (0 < length (default [] (last rows)))%nat.

(** [not rows]. *)
Definition no_rows (rows : list (list InlineKeyboardButton)) : bool :=
  match rows with [] => true | _ => false end.

Definition add_button (text_ : string)
    (callback_data_ url_ switch_inline_query_ : option string)
    (self : KeyboardBuilder) : KeyboardBuilder :=
  let button :=
    {| text := text_;
       callback_data := callback_data_;
       url := url_;
       switch_inline_query := switch_inline_query_ |} in
  let rows :=
    if no_rows (buttons self) || last_row_filled (buttons self)
    then buttons self ++ [[]]
    else buttons self in
  {| buttons := append_to_last_row rows button |}.

(** The button [add_button_row] makes of one dictionary. *)
Definition button_of_dict (btn_data : gmap string string) : InlineKeyboardButton :=
  {| text := default "" (btn_data !! "text");
     callback_data := btn_data !! "callback_data";
     url := btn_data !! "url";
     switch_inline_query := btn_data !! "switch_inline_query" |}.

Definition add_button_row (buttons_data : list (gmap string string))
    (self : KeyboardBuilder) : KeyboardBuilder :=
  let row := foldl (λ row btn_data, row ++ [button_of_dict btn_data]) [] buttons_data in
  match row with
  | [] => self
  | _ => {| buttons := buttons self ++ [row] |}
  end.

Definition row (self : KeyboardBuilder) : KeyboardBuilder :=
  if negb (no_rows (buttons self)) && last_row_filled (buttons self)
  then {| buttons := buttons self ++ [[]] |}
  else self.

Definition build (self : KeyboardBuilder) : InlineKeyboardMarkup :=
  {| inline_keyboard := buttons self |}.

Definition clear (self : KeyboardBuilder) : KeyboardBuilder :=
  {| buttons := [] |}.

(** [builder.add_button(text, callback_data=data)], the only form the
    factories use. *)
Definition add_callback_button (text_ data : string)
    (self : KeyboardBuilder) : KeyboardBuilder :=
  add_button text_ (Some data) None None self.

Definition create_main_menu_keyboard : InlineKeyboardMarkup :=
  let builder := new_builder in
  let builder := add_callback_button "📊 Statistics" "main_stats" builder in
  let builder := row builder in
  let builder := add_callback_button "👥 Members" "main_members" builder in
  let builder := add_callback_button "⚙️ Settings" "main_settings" builder in
  let builder := row builder in
  let builder := add_callback_button "❌ Close" "main_close" builder in
  build builder.

(** A value stored under ['id'] in a group dictionary: an integer or a
    string. *)
Inductive IdValue := IdInt (n : Z) | IdStr (s : string).

(** [str(v)]. *)
Definition str_id (v : IdValue) : string :=
  match v with IdInt n => str_int n | IdStr s => s end.

(** A group dictionary, seen through its keys ['id'] and ['name']; a key
    that is absent is [None]. *)
Record Group := { group_id : option IdValue; group_name : option string }.

Definition create_group_selection_keyboard (groups : list Group)
    : InlineKeyboardMarkup :=
  let builder := new_builder in
  let builder :=
    foldl (λ builder group,
             let builder :=
               add_callback_button
                 (default "Unknown" (group_name group))
                 ("group_" +:+ default "" (str_id <$> group_id group))
                 builder in
             row builder)
          builder groups in
  let builder := add_callback_button "⬅️ Back" "back_to_main" builder in
  build builder.

Definition create_member_action_keyboard (user_id_ : Z) : InlineKeyboardMarkup :=
  let builder := new_builder in
  let builder := add_callback_button "🚫 Kick" ("kick_" +:+ str_int user_id_) builder in
  let builder := add_callback_button "🔇 Mute" ("mute_" +:+ str_int user_id_) builder in
  let builder := row builder in
  let builder := add_callback_button "📋 Info" ("info_" +:+ str_int user_id_) builder in
  let builder := add_callback_button "⚠️ Warn" ("warn_" +:+ str_int user_id_) builder in
  let builder := row builder in
  let builder := add_callback_button "⬅️ Back" "back_to_members" builder in
  build builder.

Definition create_confirmation_keyboard (action confirm_callback : string)
    (cancel_callback : string) : InlineKeyboardMarkup :=
  let builder := new_builder in
  let builder := add_callback_button "✅ Confirm" confirm_callback builder in
  let builder := add_callback_button "❌ Cancel" cancel_callback builder in
  build builder.

(** A dictionary with the keys ["text"] and ["callback_data"]. *)
Definition text_and_callback (text_ data : string) : gmap string string :=
  <["text" := text_]> (<["callback_data" := data]> ∅).

Definition create_pagination_keyboard (page total_pages : Z)
    (base_callback : string) : InlineKeyboardMarkup :=
  let builder := new_builder in
  let buttons_ := [] in
  let buttons_ :=
    if bool_decide (1 < page)
    then buttons_ ++ [text_and_callback "⬅️ Previous" (base_callback +:+ "_prev")]
    else buttons_ in
  let buttons_ :=
    buttons_ ++ [text_and_callback
                   ("📄 " +:+ str_int page +:+ "/" +:+ str_int total_pages)
                   (base_callback +:+ "_info")] in
  let buttons_ :=
    if bool_decide (page < total_pages)
    then buttons_ ++ [text_and_callback "Next ➡️" (base_callback +:+ "_next")]
    else buttons_ in
  let builder := add_button_row buttons_ builder in
  build builder.

Definition create_settings_keyboard : InlineKeyboardMarkup :=
  let builder := new_builder in
  let builder := add_callback_button "🔐 Permissions" "settings_permissions" builder in
  let builder := row builder in
  let builder := add_callback_button "📝 Messages" "settings_messages" builder in
  let builder := add_callback_button "⏱️ Timers" "settings_timers" builder in
  let builder := row builder in
  let builder := add_callback_button "🎯 Rules" "settings_rules" builder in
  let builder := row builder in
  let builder := add_callback_button "⬅️ Back" "back_to_main" builder in
  build builder.

Definition create_yes_no_keyboard (callback_prefix : string)
    : InlineKeyboardMarkup :=
  let builder := new_builder in
  let builder := add_callback_button "✅ Yes" (callback_prefix +:+ "_yes") builder in
  let builder := add_callback_button "❌ No" (callback_prefix +:+ "_no") builder in
  build builder.

Definition create_back_button (callback_data_ : string) : InlineKeyboardMarkup :=
  let builder := new_builder in
  let builder := add_callback_button "⬅️ Back" callback_data_ builder in
  build builder.

(** [x % 0] on integers; the text is the one of Python 3.11 and later. *)
Definition zero_division : Exn :=
  {| exn_class := "ZeroDivisionError";
     exn_text := "integer modulo by zero" |}.

(** The loop of [create_multi_action_keyboard] from index [i] on; [%] is
    the remainder with the sign of the divisor, which raises on 0. *)
Fixpoint multi_action_loop (columns i : Z) (actions : list (gmap string string))
    (builder : KeyboardBuilder) : Res KeyboardBuilder :=
  match actions with
  | [] => Returned builder
  | action :: rest =>
      let builder :=
        add_button (default "" (action !! "text"))
                   (Some (default "" (action !! "callback_data")))
                   None None builder in
      if bool_decide (columns = 0) then Raised zero_division
      else
        let builder :=
          if bool_decide ((i + 1) `mod` columns = 0) then row builder else builder in
        multi_action_loop columns (i + 1) rest builder
  end.

Definition create_multi_action_keyboard (actions : list (gmap string string))
    (columns : Z) : Res InlineKeyboardMarkup :=
  match multi_action_loop columns 0 actions new_builder with
  | Returned builder => Returned (build builder)
  | Raised e => Raised e
  | RaisedBase b => RaisedBase b
  end.

(** The operations of a builder, to speak of sequences of them. *)
Inductive BuilderOp :=
| AddButton (b : InlineKeyboardButton)
| AddButtonRow (buttons_data : list (gmap string string))
| NewRow
| Clear.

Definition apply_op (self : KeyboardBuilder) (op : BuilderOp) : KeyboardBuilder :=
  match op with
  | AddButton b =>
      add_button (text b) (callback_data b) (url b) (switch_inline_query b) self
  | AddButtonRow d => add_button_row d self
  | NewRow => row self
  | Clear => clear self
  end.

(** The buttons a sequence of operations leaves in the builder, in the
    order they were added: a [Clear] forgets what came before it. *)
Fixpoint added (acc : list InlineKeyboardButton) (ops : list BuilderOp)
    : list InlineKeyboardButton :=
  match ops with
  | [] => acc
  | AddButton b :: ops' => added (acc ++ [b]) ops'
  | AddButtonRow d :: ops' => added (acc ++ (button_of_dict <$> d)) ops'
  | NewRow :: ops' => added acc ops'
  | Clear :: ops' => added [] ops'
  end.

(** An operation other than [add_button_row]. *)
Definition single_button_op (op : BuilderOp) : bool :=
  match op with AddButtonRow _ => false | _ => true end.

(** The handler gives [user_data] back as it got it. *)
Definition leaves_user_data (func : Handler) : Prop :=
  ∀ (update : Update) (rt : Runtime) (ud : UserData),
    (h_body func update rt ud).1.2 = ud.

(** A handler that raises [e] at once. *)
Definition failing (name : string) (e : Exn) : Handler :=
  {| h_name := name; h_body := λ _, raise e |}.

(** [InlineKeyboardButton(text=t, callback_data=c, url=u,
    switch_inline_query=s)]. *)
Definition mk_button (t : string) (c u s : option string)
    : InlineKeyboardButton :=
  {| text := t; callback_data := c; url := u; switch_inline_query := s |}.

(** Rows of one button each. *)
Definition single_rows (bs : list InlineKeyboardButton)
    : list (list InlineKeyboardButton) :=
  (λ b, [b]) <$> bs.

(** The button [create_multi_action_keyboard] makes of one action. *)
Definition action_button (action : gmap string string) : InlineKeyboardButton :=
  mk_button (default "" (action !! "text"))
            (Some (default "" (action !! "callback_data"))) None None.

(** The button [create_group_selection_keyboard] makes of one group. *)
Definition group_button (group : Group) : InlineKeyboardButton :=
  mk_button (default "Unknown" (group_name group))
            (Some ("group_" +:+ default "" (str_id <$> group_id group)))
            None None.

(** A button with a text and callback data only. *)
Definition callback_button (t data : string) : InlineKeyboardButton :=
  mk_button t (Some data) None None.

(** The rows are one row per button of [bs], in order, with at most one
    empty row after them. *)
Definition laid_out (bs : list InlineKeyboardButton)
    (rows : list (list InlineKeyboardButton)) : Prop :=
  rows = single_rows bs ∨ rows = single_rows bs ++ [[]].

(** ** Entry point: [main.py] *)

Definition start : Handler :=
  {| h_name := "start";
     h_body := λ update,
       reply_text "Welcome to Telegram Group Manager Bot! 🤖

Use /help to see available commands." None;;
       mret None |}.

Definition help_command : Handler :=
  {| h_name := "help_command";
     h_body := λ update,
       let help_text := "
Available Commands:
/start - Start the bot
/help - Show this help message
/info - Get bot information

For more information, visit our documentation.
    " in
       reply_text help_text None;;
       mret None |}.

Definition info : Handler :=
  {| h_name := "info";
     h_body := λ update,
       reply_text "Telegram Group Manager Bot v1.0

A powerful bot for managing Telegram groups effectively." None;;
       mret None |}.

(** [CommandHandler(command, callback)]. *)
Record CommandHandler := { command : string; callback : Handler }.

(** What [main] hands to the framework when it starts polling: the token
    the application was built with, the handlers added to it, in order, and
    the kinds of update it asks for. *)
Record Polling := {
  token : string;
  handlers : list CommandHandler;
  allowed_updates : list string
}.

Definition token_not_set : string :=
  "TELEGRAM_BOT_TOKEN environment variable not set!".

(** [main()], given the environment [os.getenv] reads: its log lines and
    either the exception it raises or the polling it starts. *)
Definition main (getenv : string → option string)
    : Res Polling * list Event :=
  let token_ := getenv "TELEGRAM_BOT_TOKEN" in
  if match token_ with None => true | Some s => bool_decide (s = "") end then
    (Raised {| exn_class := "ValueError"; exn_text := token_not_set |},
     [ELog ERROR token_not_set])
  else
    (Returned
       {| token := default "" token_;
          handlers := [ {| command := "start"; callback := start |};
                        {| command := "help"; callback := help_command |};
                        {| command := "info"; callback := info |} ];
          allowed_updates := ["message"; "edited_message"] |},
     [ELog INFO "Bot started successfully!"]).

(** ** Evaluating a run *)

Ltac unfold_monad :=
  cbv [mbind mret M_bind M_ret bind ret raise raise_base try_except emit get_user_data
       put_user_data runtime logger_info logger_warning logger_error
       reply_text get_chat_member call the_rate_limits store_calls].

(** Splits the result of the wrapped handler's body into its parts. *)
Ltac split_handler func :=
  match goal with
  | |- context [h_body func ?u ?rt ?ud] =>
      let v := fresh "v" in
      let e := fresh "e" in
      let b := fresh "b" in
      let ud' := fresh "ud'" in
      let tr := fresh "tr" in
      destruct (h_body func u rt ud) as [[[v|e|b] ud'] tr]
  end.

Lemma invoked_app (t1 t2 : list Event) :
  invoked (t1 ++ t2) = invoked t1 || invoked t2.
Proof. apply existsb_app. Qed.

(** A call always shows in the trace. *)
Lemma call_invoked (func : Handler) (update : Update) (rt : Runtime)
    (ud : UserData) :
  invoked (call func update rt ud).2 = true.
Proof. unfold_monad. split_handler func; reflexivity. Qed.

(** ** Permission guards *)

(** C3. With a caller in the update, [require_permission p] invokes the
    handler iff [p] is in the caller's permission set.  When it is, the run
    is the handler's own, after one log line.  When it is not, the wrapper
    returns [None], leaves [user_data] alone and sends one reply that names
    [p].  A caller with no cached permissions is always in the second
    case. *)
Theorem require_permission_spec (p : string) (func : Handler) (user : User)
    (chat : option Chat) (rt : Runtime) (ud : UserData) :
  let P := default ∅ (permissions ud) in
  let out := run (Permission p) func (with_user user chat) rt ud in
  (invoked out.2 = true ↔ p ∈ P)
  ∧ (p ∈ P →
     out = (logger_info ("User " +:+ str_int (user_id user)
                         +:+ " has permission: " +:+ p);;
            call func (with_user user chat)) rt ud)
  ∧ (p ∉ P →
     out.1 = (Returned None, ud) ∧ replies out.2 = [permission_denied_text p])
  ∧ (permissions ud = None →
     invoked out.2 = false ∧ replies out.2 = [permission_denied_text p]).
Proof.
  intros P out. subst out.
  unfold run; cbn [decorate require_permission h_body with_user effective_user].
  fold P.
  assert (HP : permissions ud = None → p ∉ P).
  { intros H. unfold P. rewrite H. set_solver. }
  unfold_monad. case_bool_decide as Hp.
  - cbn. repeat split; try done. all: intros; exfalso; tauto.
  - split_handler func; cbn; repeat split; try done; intros; exfalso; tauto.
Qed.

(** The scenario of the specification: no cached permissions, a handler
    that requires ["delete_messages"]. *)
Example require_permission_delete_messages :
  replies (run (Permission "delete_messages") (idle "purge")
               (with_user {| user_id := 7; username := None |} None)
               {| get_chat_member_result := λ _ _, Returned {| status := "member" |};
                  time_time := 0; set_iteration := elements |}
               empty_user_data).2
  = ["❌ You don't have permission to execute this command: `delete_messages`"].
Proof. reflexivity. Qed.

(** C1. With a caller in the update and a runtime that iterates a set by
    giving each element once, [require_permissions R] with [require_all]
    invokes the handler iff every string of [R] is in the caller's
    permission set [P].  Otherwise the wrapper returns [None], leaves
    [user_data] alone and sends one reply whose list of missing permissions
    has no repetition and holds exactly the strings of [R] that are not in
    [P]. *)
Theorem require_all_permissions_spec (R : list string) (func : Handler)
    (user : User) (chat : option Chat) (rt : Runtime) (ud : UserData) :
  (∀ X : gset string, set_iteration rt X ≡ₚ elements X) →
  let P := default ∅ (permissions ud) in
  let out := run (Permissions R true) func (with_user user chat) rt ud in
  (invoked out.2 = true ↔ list_to_set R ⊆ P)
  ∧ (list_to_set R ⊆ P →
     out = (logger_info ("User " +:+ str_int (user_id user)
                         +:+ " passed permission check");;
            call func (with_user user chat)) rt ud)
  ∧ (¬ list_to_set R ⊆ P →
     ∃ missing : list string,
       NoDup missing
       ∧ (∀ x, x ∈ missing ↔ x ∈ R ∧ x ∉ P)
       ∧ out.1 = (Returned None, ud)
       ∧ replies out.2 = ["❌ Missing permissions: " +:+ join ", " missing]).
Proof.
  intros Hiter P out. subst out.
  unfold run; cbn [decorate require_permissions h_body with_user effective_user].
  fold P. unfold_monad. case_bool_decide as HR; cbn [negb].
  - split_handler func; cbn; repeat split; try done; intros; exfalso; tauto.
  - cbn. repeat split; try done.
    intros _. exists (set_iteration rt (list_to_set R ∖ P)).
    split; [rewrite (Hiter _); apply NoDup_elements|].
    split; [|done].
    intros x. rewrite (Hiter _). set_solver.
Qed.

Lemma require_all_permissions_spec_witness :
  let rt := plain_runtime (Returned {| status := "member" |}) 0 in
  let ud := empty_user_data in
  let out :=
    run (Permissions ["ban"; "mute"; "ban"] true) (idle "moderate")
        (with_user {| user_id := 7; username := None |} None) rt ud in
  ∃ missing : list string,
    NoDup missing
    ∧ (∀ x, x ∈ missing ↔ x ∈ ["ban"; "mute"; "ban"] ∧ x ∉ (∅ : gset string))
    ∧ out.1 = (Returned None, ud)
    ∧ replies out.2 = ["❌ Missing permissions: " +:+ join ", " missing].
Proof.
  intros rt ud out.
  apply (require_all_permissions_spec ["ban"; "mute"; "ban"] (idle "moderate")
           {| user_id := 7; username := None |} None rt ud).
  - intros X. reflexivity.
  - cbn. set_solver.
Defined.

(** C2. With a caller in the update, [require_permissions R] without
    [require_all] invokes the handler iff some string of [R] is in the
    caller's permission set [P].  Otherwise the wrapper returns [None],
    leaves [user_data] alone and sends one reply that lists [R] as it was
    given. *)
Theorem require_any_permission_spec (R : list string) (func : Handler)
    (user : User) (chat : option Chat) (rt : Runtime) (ud : UserData) :
  let P := default ∅ (permissions ud) in
  let out := run (Permissions R false) func (with_user user chat) rt ud in
  (invoked out.2 = true ↔ list_to_set R ∩ P ≠ ∅)
  ∧ (list_to_set R ∩ P ≠ ∅ →
     out = (logger_info ("User " +:+ str_int (user_id user)
                         +:+ " passed permission check");;
            call func (with_user user chat)) rt ud)
  ∧ (list_to_set R ∩ P = ∅ →
     out.1 = (Returned None, ud)
     ∧ replies out.2 = ["❌ Requires one of: " +:+ join ", " R]).
Proof.
  intros P out. subst out.
  unfold run; cbn [decorate require_permissions h_body with_user effective_user].
  fold P. unfold_monad. case_bool_decide as HR; cbn [negb].
  - split_handler func; cbn; repeat split; try done; intros; exfalso; tauto.
  - cbn. repeat split; try done.
Qed.

(** ** Access levels *)

(** The label table holds the four levels and nothing else. *)
Lemma level_names_table (L : Z) :
  0 ≤ L ≤ 3 →
  (L = 0 ∧ level_names !! L = Some "User")
  ∨ (L = 1 ∧ level_names !! L = Some "Moderator")
  ∨ (L = 2 ∧ level_names !! L = Some "Administrator")
  ∨ (L = 3 ∧ level_names !! L = Some "Super Admin").
Proof.
  intros HL.
  assert (L = 0 ∨ L = 1 ∨ L = 2 ∨ L = 3) as [-> | [-> | [-> | ->]]] by lia;
    [left|right; left|right; right; left|right; right; right];
    split; reflexivity.
Qed.

(** C4. With a caller in the update whose stored level is [U] (0 when none
    is stored), and levels between 0 and 3, [require_access_level L] invokes
    the handler iff [L ≤ U].  Otherwise the wrapper returns [None], leaves
    [user_data] alone and sends one reply that names [L] by the fixed
    table: User, Moderator, Administrator, Super Admin. *)
Theorem require_access_level_spec (L : Z) (func : Handler) (user : User)
    (chat : option Chat) (rt : Runtime) (ud : UserData) :
  let U := default 0 (access_level ud) in
  let out := run (AccessLevel L) func (with_user user chat) rt ud in
  0 ≤ L ≤ 3 → 0 ≤ U ≤ 3 →
  (invoked out.2 = true ↔ L ≤ U)
  ∧ (L ≤ U →
     out = (logger_info ("User " +:+ str_int (user_id user)
                         +:+ " passed access level check (level: "
                         +:+ str_int U +:+ ")");;
            call func (with_user user chat)) rt ud)
  ∧ (U < L →
     out.1 = (Returned None, ud)
     ∧ ∃ label : string,
         replies out.2 = [access_denied_text label]
         ∧ ((L = 0 ∧ label = "User") ∨ (L = 1 ∧ label = "Moderator")
            ∨ (L = 2 ∧ label = "Administrator")
            ∨ (L = 3 ∧ label = "Super Admin"))).
Proof.
  intros U out HL HU. subst out.
  unfold run; cbn [decorate require_access_level h_body with_user effective_user].
  fold U. unfold_monad. case_bool_decide as Hlt.
  - cbn. split; [split; [done|lia]|]. split; [lia|].
    intros _. split; [done|].
    destruct (level_names_table L HL) as [[-> E] | [[-> E] | [[-> E] | [-> E]]]];
      rewrite E; eexists; (split; [reflexivity|]); tauto.
  - split_handler func; cbn; repeat split; try done; lia.
Qed.

Lemma require_access_level_spec_witness :
  let ud := {| authenticated_user_id := None;
               authenticated_user_username := None;
               permissions := None;
               access_level := Some 1;
               rate_limits := None |} in
  let out :=
    run (AccessLevel 2) (idle "settings")
        (with_user {| user_id := 7; username := None |} None)
        (plain_runtime (Returned {| status := "member" |}) 0) ud in
  out.1 = (Returned None, ud)
  ∧ ∃ label : string,
      replies out.2 = [access_denied_text label]
      ∧ ((2 = 0 ∧ label = "User") ∨ (2 = 1 ∧ label = "Moderator")
         ∨ (2 = 2 ∧ label = "Administrator")
         ∨ (2 = 3 ∧ label = "Super Admin")).
Proof.
  intros ud out.
  apply (require_access_level_spec 2 (idle "settings")
           {| user_id := 7; username := None |} None
           (plain_runtime (Returned {| status := "member" |}) 0) ud);
    cbn; lia.
Defined.

(** A caller with no stored level passes only a guard that requires level
    0: the level read is 0. *)
Example require_access_level_default :
  invoked (run (AccessLevel 0) (idle "settings")
               (with_user {| user_id := 7; username := None |} None)
               (plain_runtime (Returned {| status := "member" |}) 0)
               empty_user_data).2 = true
  ∧ replies (run (AccessLevel 1) (idle "settings")
                 (with_user {| user_id := 7; username := None |} None)
                 (plain_runtime (Returned {| status := "member" |}) 0)
                 empty_user_data).2
    = ["❌ This action requires Moderator access level."].
Proof. split; reflexivity. Qed.

(** ** Rate limiting *)

Lemma Qltb_lt (x y : Q) : Qltb x y = true ↔ (x < y)%Q.
Proof.
  unfold Qltb. rewrite negb_true_iff. split.
  - intros H. apply Qnot_le_lt. intros Hle. apply Qle_bool_iff in Hle. congruence.
  - intros H. destruct (Qle_bool y x) eqn:E; [|done].
    apply Qle_bool_iff in E. exfalso. eapply Qlt_not_le; eauto.
Qed.

Lemma Qltb_ge (x y : Q) : Qltb x y = false ↔ (y <= x)%Q.
Proof.
  unfold Qltb. rewrite negb_false_iff. apply Qle_bool_iff.
Qed.

(** What is kept is what is younger than the period. *)
Lemma recent_spec (now : Q) (period : Z) (h : list Q) (t : Q) :
  In t (recent now period h) ↔ In t h ∧ (now - t < inject_Z period)%Q.
Proof. unfold recent. rewrite filter_In, Qltb_lt. reflexivity. Qed.

Lemma recent_length (now : Q) (period : Z) (h : list Q) :
  (length (recent now period h) ≤ length h)%nat.
Proof. apply List.filter_length_le. Qed.

(** One run of the rate limiter with a caller in the update: the history
    is pruned and written back; at the limit the wrapper replies and
    returns, below it the reading of the clock is appended and the handler
    is called. *)
Lemma rate_limit_run (n p : Z) (func : Handler) (user : User)
    (chat : option Chat) (rt : Runtime) (ud : UserData) :
  let name := h_name func in
  let now := time_time rt in
  let kept := recent now p (history name ud) in
  let limits := default ∅ (rate_limits ud) in
  run (RateLimit n p) func (with_user user chat) rt ud
  = if bool_decide (n ≤ Z.of_nat (length kept)) then
      (Returned None, set_rate_limits (<[name := kept]> limits) ud,
       [ELog WARNING ("Rate limit exceeded for user "
                      +:+ str_int (user_id user) +:+ " on " +:+ name);
        EReply throttled_text None])
    else
      (put_user_data (set_rate_limits (<[name := kept ++ [now]]> limits) ud);;
       call func (with_user user chat)) rt ud.
Proof.
  intros name now kept limits. subst name now kept limits.
  unfold run; cbn [decorate rate_limit h_body with_user effective_user].
  unfold history, recent.
  destruct ud as [a b c d [m|]]; unfold_monad; cbn.
  - destruct (m !! h_name func) as [h|] eqn:E; cbn.
    + rewrite E. cbn. case_bool_decide.
      * reflexivity.
      * unfold set_rate_limits; cbn. rewrite insert_insert_eq.
        split_handler func; reflexivity.
    + rewrite lookup_insert_eq. cbn. rewrite !insert_insert_eq. case_bool_decide.
      * reflexivity.
      * unfold set_rate_limits; cbn. rewrite !insert_insert_eq.
        split_handler func; reflexivity.
  - rewrite lookup_empty. cbn. rewrite lookup_insert_eq. cbn.
    rewrite !insert_insert_eq. case_bool_decide.
    + reflexivity.
    + unfold set_rate_limits; cbn. rewrite !insert_insert_eq.
      split_handler func; reflexivity.
Qed.

Lemma history_set (name : string) (h : list Q) (m : gmap string (list Q))
    (ud : UserData) :
  history name (set_rate_limits (<[name := h]> m) ud) = h.
Proof. unfold history; cbn. by rewrite lookup_insert_eq. Qed.

(** The effect of one run on the trace and on the history, for a handler
    that leaves the history alone. *)
Lemma rate_limit_step (n p : Z) (func : Handler) (user : User)
    (chat : option Chat) (rt : Runtime) (ud : UserData) :
  keeps_history func →
  let name := h_name func in
  let kept := recent (time_time rt) p (history name ud) in
  let out := run (RateLimit n p) func (with_user user chat) rt ud in
  if bool_decide (n ≤ Z.of_nat (length kept)) then
    out.1.1 = Returned None ∧ invoked out.2 = false
    ∧ replies out.2 = [throttled_text] ∧ history name out.1.2 = kept
  else
    invoked out.2 = true ∧ history name out.1.2 = kept ++ [time_time rt].
Proof.
  intros Hkeep name kept out. subst out.
  rewrite rate_limit_run. fold name kept. case_bool_decide.
  - repeat split; try reflexivity. apply history_set.
  - pose proof (Hkeep (with_user user chat) rt
                  (set_rate_limits
                     (<[name := kept ++ [time_time rt]]> (default ∅ (rate_limits ud)))
                     ud)) as Hk.
    rewrite history_set in Hk. fold name in Hk.
    unfold_monad. split_handler func; cbn in *; done.
Qed.

Lemma serve_cons (g : Guard) (func : Handler) (update : Update) (rt : Runtime)
    (rts : list Runtime) (ud : UserData) :
  serve (decorate g func) update (rt :: rts) ud
  = ((run g func update rt ud).2
       :: (serve (decorate g func) update rts (run g func update rt ud).1.2).1,
     (serve (decorate g func) update rts (run g func update rt ud).1.2).2).
Proof.
  unfold run. cbn [serve].
  destruct (h_body (decorate g func) update rt ud) as [[r ud1] tr]; cbn.
  destruct (serve (decorate g func) update rts ud1); reflexivity.
Qed.

(** The history never grows beyond the limit. *)
Lemma rate_limit_bound (n : nat) (p : Z) (func : Handler) (user : User)
    (chat : option Chat) (rt : Runtime) (ud : UserData) :
  keeps_history func → (0 < n)%nat →
  (length (history (h_name func) ud) ≤ n)%nat →
  (length (history (h_name func)
             (run (RateLimit (Z.of_nat n) p) func (with_user user chat) rt ud).1.2)
   ≤ n)%nat.
Proof.
  intros Hkeep Hn Hlen.
  pose proof (rate_limit_step (Z.of_nat n) p func user chat rt ud Hkeep) as Hstep.
  cbv zeta in Hstep.
  pose proof (recent_length (time_time rt) p (history (h_name func) ud)) as Hle.
  case_bool_decide as Hfull.
  - destruct Hstep as (_ & _ & _ & ->). lia.
  - destruct Hstep as (_ & ->). rewrite length_app. cbn. lia.
Qed.

Lemma rate_limit_serve_bound (func : Handler) (user : User)
    (chat : option Chat) (rts : list Runtime) (ud : UserData) :
  keeps_history func →
  (length (history (h_name func) ud) ≤ 3)%nat →
  (length (history (h_name func)
             (serve (decorate (RateLimit 3 60) func) (with_user user chat) rts ud).2)
   ≤ 3)%nat.
Proof.
  intros Hkeep. revert ud. induction rts as [|rt rts IH]; intros ud Hlen.
  - exact Hlen.
  - rewrite serve_cons. cbn [snd]. apply IH.
    apply (rate_limit_bound 3 60 func user chat rt ud Hkeep); [lia|exact Hlen].
Qed.

(** Five calls of one caller: four in one window of 60 seconds, the fifth
    when the first is 60 seconds old or more. *)
Lemma rate_limit_scenario (func : Handler) (user : User) (chat : option Chat)
    (rt1 rt2 rt3 rt4 rt5 : Runtime) (ud : UserData) :
  keeps_history func →
  history (h_name func) ud = [] →
  (time_time rt1 <= time_time rt2)%Q → (time_time rt2 <= time_time rt3)%Q →
  (time_time rt3 <= time_time rt4)%Q →
  (time_time rt4 - time_time rt1 < 60)%Q →
  (60 <= time_time rt5 - time_time rt1)%Q →
  let traces :=
    (serve (decorate (RateLimit 3 60) func) (with_user user chat)
           [rt1; rt2; rt3; rt4; rt5] ud).1 in
  invoked <$> traces = [true; true; true; false; true]
  ∧ replies <$> traces !! 3%nat = Some [throttled_text].
Proof.
  intros Hkeep H0 H12 H23 H34 Hwin Hold.
  assert (Hin : ∀ a b : Q, (time_time rt1 <= b)%Q → (a <= time_time rt4)%Q →
                 Qltb (a - b) (inject_Z 60) = true).
  { intros a b Hb Ha. apply Qltb_lt. change (inject_Z 60) with 60%Q. lra. }
  assert (Hout : Qltb (time_time rt5 - time_time rt1) (inject_Z 60) = false).
  { apply Qltb_ge. change (inject_Z 60) with 60%Q. lra. }
  set (u := with_user user chat).
  pose proof (rate_limit_step 3 60 func user chat rt1 ud Hkeep) as S1.
  cbv zeta in S1. fold u in S1. rewrite H0 in S1.
  cbn [recent List.filter length] in S1. rewrite bool_decide_eq_false_2 in S1 by lia.
  destruct S1 as [I1 E1].
  set (ud1 := (run (RateLimit 3 60) func u rt1 ud).1.2) in *.
  pose proof (rate_limit_step 3 60 func user chat rt2 ud1 Hkeep) as S2.
  cbv zeta in S2. fold u in S2. rewrite E1 in S2.
  cbn [recent List.filter app] in S2. rewrite Hin in S2 by lra.
  cbn [length] in S2. rewrite bool_decide_eq_false_2 in S2 by lia.
  destruct S2 as [I2 E2].
  set (ud2 := (run (RateLimit 3 60) func u rt2 ud1).1.2) in *.
  pose proof (rate_limit_step 3 60 func user chat rt3 ud2 Hkeep) as S3.
  cbv zeta in S3. fold u in S3. rewrite E2 in S3.
  cbn [recent List.filter app] in S3. rewrite !Hin in S3 by lra.
  cbn [length] in S3. rewrite bool_decide_eq_false_2 in S3 by lia.
  destruct S3 as [I3 E3].
  set (ud3 := (run (RateLimit 3 60) func u rt3 ud2).1.2) in *.
  pose proof (rate_limit_step 3 60 func user chat rt4 ud3 Hkeep) as S4.
  cbv zeta in S4. fold u in S4. rewrite E3 in S4.
  cbn [recent List.filter app] in S4. rewrite !Hin in S4 by lra.
  cbn [length] in S4. rewrite bool_decide_eq_true_2 in S4 by lia.
  destruct S4 as (_ & I4 & R4 & E4).
  set (ud4 := (run (RateLimit 3 60) func u rt4 ud3).1.2) in *.
  pose proof (rate_limit_step 3 60 func user chat rt5 ud4 Hkeep) as S5.
  cbv zeta in S5. fold u in S5. rewrite E4 in S5.
  cbn [recent List.filter app] in S5. rewrite Hout in S5.
  assert (I5 : invoked (run (RateLimit 3 60) func u rt5 ud4).2 = true).
  { destruct (Qltb (time_time rt5 - time_time rt2) (inject_Z 60)),
             (Qltb (time_time rt5 - time_time rt3) (inject_Z 60));
      cbn [length] in S5; rewrite bool_decide_eq_false_2 in S5 by lia; apply S5. }
  intros traces. subst traces. rewrite !serve_cons. cbn [fst serve].
  fold ud1 ud2 ud3 ud4.
  cbn [fmap list_fmap lookup list_lookup option_fmap option_map].
  rewrite I1, I2, I3, I4, I5, R4. done.
Qed.

Lemma idle_keeps_history (name : string) : keeps_history (idle name).
Proof. intros update rt ud. reflexivity. Qed.

(** C5. [rate_limit] with [max_calls = 3] and [period = 60], a caller in
    the update and a handler that leaves the history alone.

    On every invocation the history of the action is pruned first: the
    timestamps kept are those less than 60 seconds old.  The call is denied
    (the wrapper returns [None] after one throttling reply, the handler is
    not invoked) iff at least 3 timestamps are kept; otherwise the reading
    of the clock is appended and the handler is invoked.  A history of at
    most 3 timestamps stays so.

    Hence, from an empty history: three calls and a fourth within one
    window of 60 seconds pass, pass, pass and are denied; a fifth call made
    once the first is 60 seconds old passes; and after any sequence of
    calls the history holds at most 3 timestamps. *)
Theorem rate_limit_3_60_spec (func : Handler) (user : User)
    (chat : option Chat) :
  keeps_history func →
  let name := h_name func in
  let update := with_user user chat in
  (∀ (rt : Runtime) (ud : UserData),
     let now := time_time rt in
     let kept := recent now 60 (history name ud) in
     let out := run (RateLimit 3 60) func update rt ud in
     (∀ t, In t kept ↔ In t (history name ud) ∧ (now - t < 60)%Q)
     ∧ (invoked out.2 = false ↔ (3 ≤ length kept)%nat)
     ∧ ((3 ≤ length kept)%nat →
        out.1.1 = Returned None ∧ replies out.2 = [throttled_text]
        ∧ history name out.1.2 = kept)
     ∧ ((length kept < 3)%nat → history name out.1.2 = kept ++ [now])
     ∧ ((length (history name ud) ≤ 3)%nat →
        (length (history name out.1.2) ≤ 3)%nat))
  ∧ (∀ (rt1 rt2 rt3 rt4 rt5 : Runtime) (ud : UserData),
       history name ud = [] →
       (time_time rt1 <= time_time rt2)%Q → (time_time rt2 <= time_time rt3)%Q →
       (time_time rt3 <= time_time rt4)%Q →
       (time_time rt4 - time_time rt1 < 60)%Q →
       (60 <= time_time rt5 - time_time rt1)%Q →
       let traces :=
         (serve (decorate (RateLimit 3 60) func) update
                [rt1; rt2; rt3; rt4; rt5] ud).1 in
       invoked <$> traces = [true; true; true; false; true]
       ∧ replies <$> traces !! 3%nat = Some [throttled_text])
  ∧ (∀ (rts : list Runtime) (ud : UserData),
       history name ud = [] →
       (length (history name
                  (serve (decorate (RateLimit 3 60) func) update rts ud).2)
        ≤ 3)%nat).
Proof.
  intros Hkeep name update. split; [|split].
  - intros rt ud now kept out.
    pose proof (rate_limit_step 3 60 func user chat rt ud Hkeep) as Hstep.
    cbv zeta in Hstep. fold name update now kept out in Hstep.
    split; [intros t; apply recent_spec|].
    case_bool_decide as Hfull.
    + destruct Hstep as (Hret & Hinv & Hrep & Hhist).
      split; [split; [lia|done]|]. split; [done|]. split; [lia|].
      intros Hlen. rewrite Hhist. subst kept.
      etrans; [apply recent_length|exact Hlen].
    + destruct Hstep as (Hinv & Hhist).
      split; [split; [congruence|lia]|]. split; [lia|]. split; [done|].
      intros _. rewrite Hhist, length_app. cbn. lia.
  - intros rt1 rt2 rt3 rt4 rt5 ud. apply rate_limit_scenario. exact Hkeep.
  - intros rts ud H0. apply rate_limit_serve_bound; [exact Hkeep|].
    fold name. rewrite H0. cbn. lia.
Qed.

Lemma rate_limit_3_60_spec_witness :
  let member := Returned {| status := "member" |} in
  let traces :=
    (serve (decorate (RateLimit 3 60) (idle "ping"))
           (with_user {| user_id := 7; username := None |} None)
           [plain_runtime member 0; plain_runtime member 10;
            plain_runtime member 20; plain_runtime member 30;
            plain_runtime member 65]
           empty_user_data).1 in
  invoked <$> traces = [true; true; true; false; true]
  ∧ replies <$> traces !! 3%nat = Some [throttled_text].
Proof.
  intros member.
  apply (rate_limit_3_60_spec (idle "ping") {| user_id := 7; username := None |}
           None (idle_keeps_history "ping"));
    cbn [time_time plain_runtime]; try reflexivity; lra.
Defined.

(** ** Chat administrators and owners *)

Lemma str_in_group (s : string) :
  str_in s ["group"; "supergroup"] = true ↔ s = "group" ∨ s = "supergroup".
Proof.
  unfold str_in. rewrite bool_decide_eq_true.
  rewrite !elem_of_cons, elem_of_nil. tauto.
Qed.

Lemma str_in_not_group (s : string) :
  s ≠ "group" → s ≠ "supergroup" → str_in s ["group"; "supergroup"] = false.
Proof.
  intros H1 H2. destruct (str_in s _) eqn:E; [|done].
  apply str_in_group in E. tauto.
Qed.

(** C6. With a caller in a chat that is neither a group nor a supergroup,
    the group-admin guard denies with the reply about the kind of chat: it
    returns [None], leaves [user_data] alone and does not invoke the
    handler, and its trace is one log line and that reply, so no membership
    lookup is made.  On any update at all, a lookup in the trace means that
    a caller and a chat were present and that the chat is a group or a
    supergroup: the lookup comes only after the test of the kind of chat. *)
Theorem group_admin_wrong_chat_kind (func : Handler) (user : User)
    (chat : Chat) (rt : Runtime) (ud : UserData) :
  chat_type chat ≠ "group" → chat_type chat ≠ "supergroup" →
  let out := run GroupAdmin func (with_user user (Some chat)) rt ud in
  out = (Returned None, ud,
         [ELog WARNING ("Command used in non-group chat: " +:+ chat_type chat);
          EReply "❌ This command can only be used in groups." None])
  ∧ looked_up out.2 = false ∧ invoked out.2 = false
  ∧ ∀ (func' : Handler) (update' : Update) (rt' : Runtime) (ud' : UserData),
      looked_up (run GroupAdmin func' update' rt' ud').2 = true →
      ∃ user' chat',
        effective_user update' = Some user'
        ∧ effective_chat update' = Some chat'
        ∧ (chat_type chat' = "group" ∨ chat_type chat' = "supergroup").
Proof.
  intros H1 H2 out. subst out. split; [|split; [|split]].
  - unfold run.
    cbn [decorate require_group_admin h_body with_user effective_user
         effective_chat].
    rewrite (str_in_not_group _ H1 H2). reflexivity.
  - unfold run.
    cbn [decorate require_group_admin h_body with_user effective_user
         effective_chat].
    rewrite (str_in_not_group _ H1 H2). reflexivity.
  - unfold run.
    cbn [decorate require_group_admin h_body with_user effective_user
         effective_chat].
    rewrite (str_in_not_group _ H1 H2). reflexivity.
  - intros func' [[user'|] [chat'|]] rt' ud'; unfold run;
      cbn [decorate require_group_admin h_body effective_user effective_chat];
      try (unfold_monad; cbn; discriminate).
    destruct (str_in (chat_type chat') _) eqn:E; cbn [negb].
    + intros _. exists user', chat'. apply str_in_group in E. done.
    + unfold_monad. cbn. discriminate.
Qed.

Lemma group_admin_wrong_chat_kind_witness :
  let out :=
    run GroupAdmin (idle "ban")
        (with_user {| user_id := 7; username := None |}
                   (Some {| chat_id := 7; chat_type := "private" |}))
        (plain_runtime (Returned {| status := "creator" |}) 0)
        empty_user_data in
  out = (Returned None, empty_user_data,
         [ELog WARNING "Command used in non-group chat: private";
          EReply "❌ This command can only be used in groups." None])
  ∧ looked_up out.2 = false ∧ invoked out.2 = false.
Proof.
  intros out.
  pose proof (group_admin_wrong_chat_kind (idle "ban")
                {| user_id := 7; username := None |}
                {| chat_id := 7; chat_type := "private" |}
                (plain_runtime (Returned {| status := "creator" |}) 0)
                empty_user_data ltac:(discriminate) ltac:(discriminate))
    as (H1 & H2 & H3 & _).
  exact (conj H1 (conj H2 H3)).
Defined.

(** The scenario of the specification: a caller in a private chat. *)
Example group_admin_private_chat :
  run GroupAdmin (idle "ban")
      (with_user {| user_id := 7; username := None |}
                 (Some {| chat_id := 7; chat_type := "private" |}))
      (plain_runtime (Raised {| exn_class := "NetworkError"; exn_text := "down" |}) 0)
      empty_user_data
  = (Returned None, empty_user_data,
     [ELog WARNING "Command used in non-group chat: private";
      EReply "❌ This command can only be used in groups." None]).
Proof. reflexivity. Qed.

(** C7, as the specification words it, fails: [except Exception] does not
    catch what is raised outside [Exception].  A lookup that is cancelled,
    raising [asyncio.CancelledError] at its [await], leaves the admin guard
    as it is raised: no reply, no return. *)
Lemma cancelled_lookup_escapes : ¬ lookup_failure_always_caught.
Proof.
  intros H.
  pose proof (H (idle "ban") {| user_id := 7; username := None |}
                {| chat_id := -100; chat_type := "group" |}
                (plain_runtime
                   (RaisedBase {| base_class := "asyncio.CancelledError" |}) 0)
                empty_user_data ltac:(intros member; discriminate))
    as ((K & _) & _).
  discriminate K.
Qed.

(** The run of the admin guard on a cancelled lookup. *)
Example cancelled_lookup_run :
  run Admin (idle "ban")
      (with_user {| user_id := 7; username := None |}
                 (Some {| chat_id := -100; chat_type := "group" |}))
      (plain_runtime (RaisedBase {| base_class := "asyncio.CancelledError" |}) 0)
      empty_user_data
  = (RaisedBase {| base_class := "asyncio.CancelledError" |}, empty_user_data,
     [EGetChatMember (-100) 7]).
Proof. reflexivity. Qed.

(** C7, amended.  When the membership lookup raises an instance of
    [Exception], each of the admin, group-admin
    and owner guards (the owner guard makes the lookup when no owner id is
    configured; the group-admin guard in a group or supergroup) catches the
    exception: the run returns [None], [user_data] is unchanged, and the
    trace is the lookup, one error log line and one fixed reply.  The
    handler is not invoked and nothing is raised. *)
Theorem lookup_failure_is_denied (func : Handler) (user : User) (chat : Chat)
    (rt : Runtime) (ud : UserData) (e : Exn) :
  get_chat_member_result rt (chat_id chat) (user_id user) = Raised e →
  let update := with_user user (Some chat) in
  let lookup := EGetChatMember (chat_id chat) (user_id user) in
  run Admin func update rt ud
  = (Returned None, ud,
     [lookup; ELog ERROR ("Error checking admin status: " +:+ exn_text e);
      EReply "❌ Error verifying admin status." None])
  ∧ (chat_type chat = "group" ∨ chat_type chat = "supergroup" →
     run GroupAdmin func update rt ud
     = (Returned None, ud,
        [lookup; ELog ERROR ("Error verifying group admin: " +:+ exn_text e);
         EReply "❌ Error verifying admin status." None]))
  ∧ run (Owner None) func update rt ud
    = (Returned None, ud,
       [lookup; ELog ERROR ("Error verifying group creator: " +:+ exn_text e);
        EReply "❌ Error verifying ownership." None]).
Proof.
  intros Hraise update lookup. subst update lookup. unfold run.
  cbn [decorate require_admin require_group_admin require_owner h_body
       with_user effective_user effective_chat].
  split; [|split].
  - unfold_monad. rewrite Hraise. reflexivity.
  - intros Hkind. apply str_in_group in Hkind. rewrite Hkind. cbn [negb].
    unfold_monad. rewrite Hraise. reflexivity.
  - unfold_monad. rewrite Hraise. reflexivity.
Qed.

Lemma lookup_failure_is_denied_witness :
  let e := {| exn_class := "TimedOut"; exn_text := "Timed out" |} in
  let update :=
    with_user {| user_id := 7; username := Some "ann" |}
              (Some {| chat_id := -100; chat_type := "supergroup" |}) in
  run GroupAdmin (idle "ban") update (plain_runtime (Raised e) 0) empty_user_data
  = (Returned None, empty_user_data,
     [EGetChatMember (-100) 7;
      ELog ERROR "Error verifying group admin: Timed out";
      EReply "❌ Error verifying admin status." None]).
Proof.
  intros e update.
  apply (lookup_failure_is_denied (idle "ban")
           {| user_id := 7; username := Some "ann" |}
           {| chat_id := -100; chat_type := "supergroup" |}
           (plain_runtime (Raised e) 0) empty_user_data e).
  - reflexivity.
  - right. reflexivity.
Defined.

(** C10. With no owner id configured, a caller in the update and no chat,
    [require_owner] neither compares ids nor looks the membership up: the
    run is one log line that reports the caller as the owner, followed by
    the call of the handler. *)
Theorem owner_without_chat_is_unchecked (func : Handler) (user : User)
    (rt : Runtime) (ud : UserData) :
  let out := run (Owner None) func (with_user user None) rt ud in
  out = (logger_info ("User " +:+ str_int (user_id user) +:+ " verified as owner");;
         call func (with_user user None)) rt ud
  ∧ invoked out.2 = true.
Proof.
  intros out. subst out. unfold run.
  cbn [decorate require_owner h_body with_user effective_user effective_chat].
  unfold_monad. cbn. split_handler func; cbn; done.
Qed.

(** The same run on a handler that does nothing: no lookup, no reply. *)
Example owner_without_chat_trace :
  run (Owner None) (idle "shutdown")
      (with_user {| user_id := 7; username := None |} None)
      (plain_runtime (Returned {| status := "member" |}) 0) empty_user_data
  = (Returned None, empty_user_data,
     [ELog INFO "User 7 verified as owner"; ECall "shutdown"]).
Proof. reflexivity. Qed.

(** ** Guards and the handler they wrap *)

(** Case analysis on a guard and an update, down to the branches of the
    wrapper. *)
Ltac guard_cases g update :=
  let user := fresh "user" in
  let chat := fresh "chat" in
  destruct g as [|?p|?ps [|]| |?l| |[?o|]|?n ?t|?a], update as [[user|] [chat|]];
  try (change {| effective_user := Some user; effective_chat := Some chat |}
         with (with_user user (Some chat)) in *);
  try (change {| effective_user := Some user; effective_chat := None |}
         with (with_user user None) in *);
  rewrite ?rate_limit_run in *;
  unfold run in *;
  cbn [decorate require_authentication require_permission require_permissions
       require_admin require_access_level require_group_admin require_owner
       rate_limit log_action h_body h_name idle with_user
       effective_user effective_chat] in *;
  unfold_monad;
  repeat (match goal with
          | |- context [get_chat_member_result ?r ?c ?u] =>
              destruct (get_chat_member_result r c u) as [[?st]|?ex|?bx]
          | |- context [bool_decide ?P] => destruct (bool_decide P)
          | |- context [str_in ?x ?l] => destruct (str_in x l)
          end; cbn [negb status]; cbv beta iota zeta).

(** A run that does not invoke the handler is the same for every handler
    of that name. *)
Lemma denied_run_ignores_handler (g : Guard) (func func' : Handler)
    (update : Update) (rt : Runtime) (ud : UserData) :
  h_name func' = h_name func →
  invoked (run g func update rt ud).2 = false →
  run g func' update rt ud = run g func update rt ud.
Proof.
  intros Hname. destruct func' as [name' body']. cbn in Hname. subst name'.
  guard_cases g update; try split_handler func; cbn; intros Hinv;
    try discriminate Hinv; reflexivity.
Qed.

(** [functools.wraps]: a decorated handler keeps the name of the handler. *)
Lemma decorate_name (g : Guard) (func : Handler) :
  h_name (decorate g func) = h_name func.
Proof. destruct g; reflexivity. Qed.

(** ** Missing identities and deny outcomes *)

(** C8, as the specification words it, fails: with no caller in the update
    the rate limiter returns without any reply. *)
Lemma rate_limit_without_caller_is_silent : ¬ missing_identity_always_answered.
Proof.
  intros H.
  pose proof (H (RateLimit 3 60) (idle "ping") (without_user None)
                (plain_runtime (Returned {| status := "member" |}) 0)
                empty_user_data (or_introl eq_refl)) as (_ & _ & K).
  apply K. reflexivity.
Qed.

(** The audit-log decorator reads the caller's id before anything else:
    with no caller in the update it raises. *)
Example log_action_without_caller_raises :
  run (LogAction "ban") (idle "ban") (without_user None)
      (plain_runtime (Returned {| status := "member" |}) 0) empty_user_data
  = (Raised (none_has_no_attribute "id"), empty_user_data, []).
Proof. reflexivity. Qed.

(** C8, amended.  For every guard but the audit log, when the caller is
    absent from the update (or, for the admin and group-admin guards, the
    chat), the request ends in the guard: the handler is not invoked, no
    membership lookup is made and [user_data] is left as it was.  The rate
    limiter does so in silence: it returns [None] at once, with no reply and
    no log line. *)
Theorem missing_identity_is_denied (g : Guard) (func : Handler)
    (update : Update) (rt : Runtime) (ud : UserData) :
  identity_missing g update →
  (∀ action_type, g ≠ LogAction action_type) →
  let out := run g func update rt ud in
  invoked out.2 = false ∧ looked_up out.2 = false ∧ out.1.2 = ud
  ∧ ((∃ n p, g = RateLimit n p) → out = (Returned None, ud, [])).
Proof.
  intros Hmiss Hlog out. subst out. unfold identity_missing in Hmiss.
  destruct g as [|p|ps all| |l| |o|n t|a], update as [[user|] [chat|]];
    cbn [needs_chat effective_user effective_chat] in Hmiss;
    try (exfalso; destruct Hmiss as [Hm|[Hm1 Hm2]]; discriminate);
    try (exfalso; by apply (Hlog a));
    unfold run;
    cbn [decorate require_authentication require_permission require_permissions
         require_admin require_access_level require_group_admin require_owner
         rate_limit h_body effective_user effective_chat];
    unfold_monad; cbn; repeat split; try done;
    intros (n' & p' & [=]).
Qed.

Lemma missing_identity_is_denied_witness :
  let update := without_user (Some {| chat_id := -1005; chat_type := "channel" |}) in
  let out :=
    run GroupAdmin (idle "ban") update
        (plain_runtime (Returned {| status := "creator" |}) 0)
        empty_user_data in
  invoked out.2 = false ∧ looked_up out.2 = false ∧ out.1.2 = empty_user_data
  ∧ ((∃ n p, GroupAdmin = RateLimit n p) → out = (Returned None, empty_user_data, [])).
Proof.
  intros update out.
  apply (missing_identity_is_denied GroupAdmin (idle "ban") update
           (plain_runtime (Returned {| status := "creator" |}) 0)
           empty_user_data).
  - left. reflexivity.
  - intros action_type. discriminate.
Defined.

Lemma marker_distinct_from_denial (name : string) :
  distinct_from_denial (marker name).
Proof. intros update rt ud. split; [reflexivity|discriminate]. Qed.

(** C9, as the specification words it, fails: the rate limiter's return on
    an update with no caller is a deny outcome with no reply. *)
Lemma rate_limit_denies_without_reply : ¬ deny_always_final.
Proof.
  intros H.
  pose proof (H (RateLimit 3 60) (marker "ping") (without_user None)
                (plain_runtime (Returned {| status := "member" |}) 0)
                empty_user_data (marker_distinct_from_denial "ping")
                (or_intror eq_refl)) as [_ K].
  apply K. reflexivity.
Qed.

(** Inside the [try] of the admin guards the handler itself is covered: an
    exception it raises is answered by the guard's error reply. *)
Example admin_guard_catches_the_handler :
  run Admin {| h_name := "ban";
               h_body := λ _, raise {| exn_class := "ValueError";
                                       exn_text := "no target" |} |}
      (with_user {| user_id := 7; username := None |}
                 (Some {| chat_id := -100; chat_type := "group" |}))
      (plain_runtime (Returned {| status := "creator" |}) 0) empty_user_data
  = (Returned None, empty_user_data,
     [EGetChatMember (-100) 7; ELog INFO "User 7 is admin in chat -100";
      ECall "ban"; ELog ERROR "Error checking admin status: no target";
      EReply "❌ Error verifying admin status." None]).
Proof. reflexivity. Qed.

(** C9, amended.  Take a handler whose own outcome cannot be taken for a
    denial (it sends no reply and does not return [None]) and, for the two
    guards that call it inside their [try], one that raises no [Exception].
    Then on every run of every guard in which the guard answers the caller
    or the wrapper returns [None], the handler has not been invoked at any
    point of the run; and the caller has got a reply, unless the guard is
    the rate limiter and the update has no caller, in which case the run
    leaves no trace. *)
Theorem deny_is_final (g : Guard) (func : Handler) (update : Update)
    (rt : Runtime) (ud : UserData) :
  distinct_from_denial func →
  (calls_inside_try g = true → raises_no_exception func) →
  let out := run g func update rt ud in
  deny_outcome out →
  invoked out.2 = false
  ∧ (replies out.2 ≠ []
     ∨ ((∃ n p, g = RateLimit n p) ∧ effective_user update = None
        ∧ out = (Returned None, ud, []))).
Proof.
  intros Hd Hsafe. cbv zeta. unfold deny_outcome.
  guard_cases g update;
    try match goal with
        | |- context [h_body func ?u ?r ?d] =>
            pose proof (Hd u r d) as [Hrep Hnone];
            try (pose proof (Hsafe eq_refl u r d) as Hex);
            destruct (h_body func u r d) as [[[v|e|b] ud'] tr]
        end;
    cbn [fst snd] in *;
    try (exfalso; by eapply Hex);
    cbn;
    try (fold (replies tr); rewrite ?omap_app; fold (replies tr); rewrite Hrep);
    cbn;
    intros [Hdeny|Hdeny];
    try (exfalso; apply Hdeny; reflexivity);
    try discriminate Hdeny;
    try (exfalso; apply Hnone; exact Hdeny);
    (split; [reflexivity|]);
    first [left; discriminate | right; eauto].
Qed.

Lemma deny_is_final_witness :
  let out :=
    run (Permission "ban") (marker "ban")
        (with_user {| user_id := 7; username := None |} None)
        (plain_runtime (Returned {| status := "member" |}) 0)
        empty_user_data in
  invoked out.2 = false
  ∧ (replies out.2 ≠ []
     ∨ ((∃ n p, Permission "ban" = RateLimit n p)
        ∧ effective_user (with_user {| user_id := 7; username := None |} None) = None
        ∧ out = (Returned None, empty_user_data, []))).
Proof.
  intros out.
  apply (deny_is_final (Permission "ban") (marker "ban")
           (with_user {| user_id := 7; username := None |} None)
           (plain_runtime (Returned {| status := "member" |}) 0)
           empty_user_data (marker_distinct_from_denial "ban")).
  - discriminate.
  - left. discriminate.
Defined.

(** X1. Whether a guard invokes the handler it wraps does not depend on
    what the handler does: it is the same as for the handler of that name
    that does nothing. *)
Theorem guard_decision_ignores_handler (g : Guard) (func : Handler)
    (update : Update) (rt : Runtime) (ud : UserData) :
  invoked (run g func update rt ud).2
  = invoked (run g (idle (h_name func)) update rt ud).2.
Proof.
  guard_cases g update; try split_handler func; reflexivity.
Qed.

(** X2. Stacked guards: when the outer guard does not invoke what it
    wraps, the inner guard is not evaluated at all; the run is the one the
    outer guard makes on the bare handler. *)
Theorem first_denial_short_circuits (g1 g2 : Guard) (func : Handler)
    (update : Update) (rt : Runtime) (ud : UserData) :
  invoked (run g1 func update rt ud).2 = false →
  run g1 (decorate g2 func) update rt ud = run g1 func update rt ud.
Proof.
  intros Hdeny. apply denied_run_ignores_handler; [apply decorate_name|exact Hdeny].
Qed.

Lemma first_denial_short_circuits_witness :
  let update :=
    with_user {| user_id := 7; username := None |}
              (Some {| chat_id := -100; chat_type := "group" |}) in
  let rt := plain_runtime (Returned {| status := "creator" |}) 0 in
  run (Permission "ban") (decorate Admin (idle "ban")) update rt empty_user_data
  = run (Permission "ban") (idle "ban") update rt empty_user_data.
Proof.
  intros update rt.
  apply (first_denial_short_circuits (Permission "ban") Admin (idle "ban")
           update rt empty_user_data).
  reflexivity.
Defined.

(** X3. When a guard lets the request through and the handler returns,
    the run returns the handler's value and the handler's [user_data], and
    its trace is the guard's own trace followed by the handler's. *)
Theorem guard_hands_over (g : Guard) (func : Handler) (update : Update)
    (rt : Runtime) (ud : UserData) (v : value) (ud2 : UserData)
    (tr : list Event) :
  let o := run g (idle (h_name func)) update rt ud in
  invoked o.2 = true →
  h_body func update rt o.1.2 = (Returned v, ud2, tr) →
  run g func update rt ud = (Returned v, ud2, o.2 ++ tr).
Proof.
  cbv zeta.
  guard_cases g update; cbn; intros Hinv Hbody; try discriminate Hinv;
    rewrite Hbody; reflexivity.
Qed.

Lemma guard_hands_over_witness :
  let update := with_user {| user_id := 7; username := Some "ann" |} None in
  let rt := plain_runtime (Returned {| status := "member" |}) 0 in
  let func :=
    {| h_name := "ping";
       h_body := λ _, reply_text "pong" None;; mret (Some 1) |} in
  run Authentication func update rt empty_user_data
  = (Returned (Some 1),
     (run Authentication (idle "ping") update rt empty_user_data).1.2,
     (run Authentication (idle "ping") update rt empty_user_data).2
       ++ [EReply "pong" None]).
Proof.
  intros update rt func.
  apply (guard_hands_over Authentication func update rt empty_user_data
           (Some 1) _ [EReply "pong" None]); reflexivity.
Defined.

(** X4. When a guard lets the request through and the handler raises, the
    admin and group-admin guards catch the exception, log it and answer with
    their error reply, returning [None]; every other guard lets the
    exception out. *)
Theorem handler_exception_outcome (g : Guard) (func : Handler)
    (update : Update) (rt : Runtime) (ud : UserData) (e : Exn)
    (ud2 : UserData) (tr : list Event) :
  let o := run g (idle (h_name func)) update rt ud in
  invoked o.2 = true →
  h_body func update rt o.1.2 = (Raised e, ud2, tr) →
  run g func update rt ud
  = match g with
    | Admin =>
        (Returned None, ud2,
         o.2 ++ tr ++ [ELog ERROR ("Error checking admin status: " +:+ exn_text e);
                       EReply "❌ Error verifying admin status." None])
    | GroupAdmin =>
        (Returned None, ud2,
         o.2 ++ tr ++ [ELog ERROR ("Error verifying group admin: " +:+ exn_text e);
                       EReply "❌ Error verifying admin status." None])
    | _ => (Raised e, ud2, o.2 ++ tr)
    end.
Proof.
  cbv zeta.
  guard_cases g update; cbn; intros Hinv Hbody; try discriminate Hinv;
    rewrite Hbody; reflexivity.
Qed.

Lemma handler_exception_outcome_witness :
  let e := {| exn_class := "ValueError"; exn_text := "no target" |} in
  let update := with_user {| user_id := 7; username := None |} None in
  let rt := plain_runtime (Returned {| status := "member" |}) 0 in
  run (Owner (Some 7)) (failing "shutdown" e) update rt empty_user_data
  = (Raised e, empty_user_data,
     [ELog INFO "User 7 verified as owner"; ECall "shutdown"]).
Proof.
  intros e update rt.
  apply (handler_exception_outcome (Owner (Some 7)) (failing "shutdown" e)
           update rt empty_user_data e empty_user_data []); reflexivity.
Defined.

(** ** The remaining branches of the guards *)

Lemma str_in_admin (s : string) :
  str_in s ["creator"; "administrator"] = true
  ↔ s = "creator" ∨ s = "administrator".
Proof.
  unfold str_in. rewrite bool_decide_eq_true.
  rewrite !elem_of_cons, elem_of_nil. tauto.
Qed.

(** X6. [require_admin] with a caller and a chat, when the lookup answers:
    the lookup for this chat and caller is the first event; the handler is
    invoked iff the status is creator or administrator; any other status is
    denied with one fixed reply and [user_data] unchanged. *)
Theorem require_admin_spec (func : Handler) (user : User) (chat : Chat)
    (rt : Runtime) (ud : UserData) (member : ChatMember) :
  get_chat_member_result rt (chat_id chat) (user_id user) = Returned member →
  let update := with_user user (Some chat) in
  let lookup := EGetChatMember (chat_id chat) (user_id user) in
  let out := run Admin func update rt ud in
  (invoked out.2 = true
   ↔ status member = "creator" ∨ status member = "administrator")
  ∧ (∃ rest, out.2 = lookup :: rest)
  ∧ (status member ≠ "creator" → status member ≠ "administrator" →
     out = (Returned None, ud,
            [lookup;
             ELog WARNING ("User " +:+ str_int (user_id user)
                           +:+ " is not an admin in chat "
                           +:+ str_int (chat_id chat));
             EReply "❌ You must be an admin to use this command." None])).
Proof.
  intros Hmember update lookup out. subst update lookup out. unfold run.
  cbn [decorate require_admin h_body with_user effective_user effective_chat].
  unfold_monad. rewrite Hmember. cbv beta iota zeta.
  destruct (str_in (status member) _) eqn:E; cbn [negb].
  - apply str_in_admin in E. split_handler func; cbn;
      (split; [done|]); (split; [eauto|]); intros; exfalso; tauto.
  - assert (¬ (status member = "creator" ∨ status member = "administrator")) as Hn.
    { intros H%str_in_admin. congruence. }
    cbn. split; [split; [done|tauto]|]. split; [eauto|]. done.
Qed.

Lemma require_admin_spec_witness :
  let update :=
    with_user {| user_id := 7; username := None |}
              (Some {| chat_id := -100; chat_type := "private" |}) in
  run Admin (idle "ban") update
      (plain_runtime (Returned {| status := "restricted" |}) 0) empty_user_data
  = (Returned None, empty_user_data,
     [EGetChatMember (-100) 7;
      ELog WARNING "User 7 is not an admin in chat -100";
      EReply "❌ You must be an admin to use this command." None]).
Proof.
  intros update.
  apply (require_admin_spec (idle "ban") {| user_id := 7; username := None |}
           {| chat_id := -100; chat_type := "private" |}
           (plain_runtime (Returned {| status := "restricted" |}) 0)
           empty_user_data {| status := "restricted" |});
    [reflexivity|discriminate|discriminate].
Defined.

(** X7. [require_group_admin] in a group or supergroup, with a caller, when
    the lookup answers: the lookup is the first event; the handler is
    invoked iff the status is creator or administrator; any other status is
    denied with the guard's own reply and [user_data] unchanged. *)
Theorem require_group_admin_spec (func : Handler) (user : User) (chat : Chat)
    (rt : Runtime) (ud : UserData) (member : ChatMember) :
  chat_type chat = "group" ∨ chat_type chat = "supergroup" →
  get_chat_member_result rt (chat_id chat) (user_id user) = Returned member →
  let update := with_user user (Some chat) in
  let lookup := EGetChatMember (chat_id chat) (user_id user) in
  let out := run GroupAdmin func update rt ud in
  (invoked out.2 = true
   ↔ status member = "creator" ∨ status member = "administrator")
  ∧ (∃ rest, out.2 = lookup :: rest)
  ∧ (status member ≠ "creator" → status member ≠ "administrator" →
     out = (Returned None, ud,
            [lookup;
             ELog WARNING ("User " +:+ str_int (user_id user)
                           +:+ " is not an admin in group "
                           +:+ str_int (chat_id chat));
             EReply "❌ You must be a group admin to use this command." None])).
Proof.
  intros Hkind Hmember update lookup out. subst update lookup out. unfold run.
  cbn [decorate require_group_admin h_body with_user effective_user effective_chat].
  apply str_in_group in Hkind. rewrite Hkind. cbn [negb].
  unfold_monad. rewrite Hmember. cbv beta iota zeta.
  destruct (str_in (status member) _) eqn:E; cbn [negb].
  - apply str_in_admin in E. split_handler func; cbn;
      (split; [done|]); (split; [eauto|]); intros; exfalso; tauto.
  - assert (¬ (status member = "creator" ∨ status member = "administrator")) as Hn.
    { intros H%str_in_admin. congruence. }
    cbn. split; [split; [done|tauto]|]. split; [eauto|]. done.
Qed.

Lemma require_group_admin_spec_witness :
  let update :=
    with_user {| user_id := 7; username := None |}
              (Some {| chat_id := -100; chat_type := "supergroup" |}) in
  invoked (run GroupAdmin (idle "ban") update
               (plain_runtime (Returned {| status := "administrator" |}) 0)
               empty_user_data).2 = true.
Proof.
  intros update.
  apply (require_group_admin_spec (idle "ban")
           {| user_id := 7; username := None |}
           {| chat_id := -100; chat_type := "supergroup" |}
           (plain_runtime (Returned {| status := "administrator" |}) 0)
           empty_user_data {| status := "administrator" |});
    [right; reflexivity|reflexivity|right; reflexivity].
Defined.

(** X8. [require_owner] with a configured owner id and a caller: the
    handler is invoked iff the caller's id is that id.  The chat plays no
    part and no membership lookup is made: a pass is one log line and the
    call, a denial is one log line and one reply. *)
Theorem require_owner_fixed_id_spec (owner : Z) (func : Handler) (user : User)
    (chat : option Chat) (rt : Runtime) (ud : UserData) :
  let update := with_user user chat in
  let out := run (Owner (Some owner)) func update rt ud in
  (invoked out.2 = true ↔ user_id user = owner)
  ∧ (user_id user = owner →
     out = (logger_info ("User " +:+ str_int (user_id user)
                         +:+ " verified as owner");;
            call func update) rt ud)
  ∧ (user_id user ≠ owner →
     out = (Returned None, ud,
            [ELog WARNING ("User " +:+ str_int (user_id user)
                           +:+ " is not the owner");
             EReply "❌ Only the owner can execute this command." None])).
Proof.
  intros update out. subst update out. unfold run.
  cbn [decorate require_owner h_body with_user effective_user effective_chat].
  unfold_monad. case_bool_decide as Hid; cbv beta iota zeta.
  - cbn. repeat split; try done; intros; exfalso; tauto.
  - split_handler func; cbn; repeat split; try done; intros; exfalso; tauto.
Qed.

(** X9. [require_owner] with no owner id, a caller and a chat, when the
    lookup answers: the handler is invoked iff the status is creator, so an
    administrator is denied; the denial is the lookup, one log line and one
    reply, with [user_data] unchanged. *)
Theorem require_owner_creator_spec (func : Handler) (user : User) (chat : Chat)
    (rt : Runtime) (ud : UserData) (member : ChatMember) :
  get_chat_member_result rt (chat_id chat) (user_id user) = Returned member →
  let update := with_user user (Some chat) in
  let lookup := EGetChatMember (chat_id chat) (user_id user) in
  let out := run (Owner None) func update rt ud in
  (invoked out.2 = true ↔ status member = "creator")
  ∧ (status member = "creator" →
     out = (emit lookup;;
            logger_info ("User " +:+ str_int (user_id user)
                         +:+ " verified as owner");;
            call func update) rt ud)
  ∧ (status member ≠ "creator" →
     out = (Returned None, ud,
            [lookup;
             ELog WARNING ("User " +:+ str_int (user_id user)
                           +:+ " is not group creator in "
                           +:+ str_int (chat_id chat));
             EReply "❌ Only the group creator can execute this command." None])).
Proof.
  intros Hmember update lookup out. subst update lookup out. unfold run.
  cbn [decorate require_owner h_body with_user effective_user effective_chat].
  unfold_monad. rewrite Hmember. cbv beta iota zeta.
  case_bool_decide as Hst; cbv beta iota zeta.
  - cbn. repeat split; try done; intros; exfalso; tauto.
  - split_handler func; cbn; repeat split; try done; intros; exfalso; tauto.
Qed.

Lemma require_owner_creator_spec_witness :
  let update :=
    with_user {| user_id := 7; username := None |}
              (Some {| chat_id := -100; chat_type := "group" |}) in
  run (Owner None) (idle "shutdown") update
      (plain_runtime (Returned {| status := "administrator" |}) 0)
      empty_user_data
  = (Returned None, empty_user_data,
     [EGetChatMember (-100) 7;
      ELog WARNING "User 7 is not group creator in -100";
      EReply "❌ Only the group creator can execute this command." None]).
Proof.
  intros update.
  apply (require_owner_creator_spec (idle "shutdown")
           {| user_id := 7; username := None |}
           {| chat_id := -100; chat_type := "group" |}
           (plain_runtime (Returned {| status := "administrator" |}) 0)
           empty_user_data {| status := "administrator" |});
    [reflexivity|discriminate].
Defined.

(** X10. [require_authentication] with a caller always invokes the
    handler, and the handler runs on a [user_data] in which the caller's id
    and username are stored (a username that is [None] is stored as such)
    and the permissions, the access level and the rate-limit histories are
    as before. *)
Theorem require_authentication_spec (func : Handler) (user : User)
    (chat : option Chat) (rt : Runtime) (ud : UserData) :
  let update := with_user user chat in
  let out := run Authentication func update rt ud in
  invoked out.2 = true
  ∧ ∃ ud1,
      authenticated_user_id ud1 = Some (user_id user)
      ∧ authenticated_user_username ud1 = Some (username user)
      ∧ permissions ud1 = permissions ud
      ∧ access_level ud1 = access_level ud
      ∧ rate_limits ud1 = rate_limits ud
      ∧ out = (logger_info ("User " +:+ str_int (user_id user) +:+ " ("
                            +:+ str_opt (username user)
                            +:+ ") authenticated successfully");;
               call func update) rt ud1.
Proof.
  intros update out. subst update out. unfold run.
  cbn [decorate require_authentication h_body with_user effective_user].
  unfold_monad. split.
  - split_handler func; reflexivity.
  - exists {| authenticated_user_id := Some (user_id user);
              authenticated_user_username := Some (username user);
              permissions := permissions ud;
              access_level := access_level ud;
              rate_limits := rate_limits ud |}.
    repeat split. split_handler func; reflexivity.
Qed.

(** ** Rate limiting with any budget and period *)

(** X11. [rate_limit] with any [max_calls] and [period], a caller in the
    update and a handler that leaves the history alone: the timestamps kept
    are those younger than the period; the call is denied iff at least
    [max_calls] of them are kept; a denied call is not recorded, an admitted
    one is appended to what was kept. *)
Theorem rate_limit_spec (max_calls period : Z) (func : Handler) (user : User)
    (chat : option Chat) (rt : Runtime) (ud : UserData) :
  keeps_history func →
  let name := h_name func in
  let now := time_time rt in
  let kept := recent now period (history name ud) in
  let out := run (RateLimit max_calls period) func (with_user user chat) rt ud in
  (∀ t, In t kept ↔ In t (history name ud) ∧ (now - t < inject_Z period)%Q)
  ∧ (invoked out.2 = false ↔ max_calls ≤ Z.of_nat (length kept))
  ∧ (max_calls ≤ Z.of_nat (length kept) →
     out.1.1 = Returned None ∧ replies out.2 = [throttled_text]
     ∧ history name out.1.2 = kept)
  ∧ (Z.of_nat (length kept) < max_calls →
     history name out.1.2 = kept ++ [now]).
Proof.
  intros Hkeep name now kept out.
  pose proof (rate_limit_step max_calls period func user chat rt ud Hkeep) as Hstep.
  cbv zeta in Hstep. fold name now kept out in Hstep.
  split; [intros t; apply recent_spec|].
  case_bool_decide as Hfull.
  - destruct Hstep as (Hret & Hinv & Hrep & Hhist).
    split; [done|]. split; [done|]. lia.
  - destruct Hstep as (Hinv & Hhist).
    split; [split; [congruence|lia]|]. split; [lia|]. done.
Qed.

Lemma rate_limit_spec_witness :
  let ud := set_rate_limits {[ "ping" := [1%Q; 50%Q; 58%Q] ]} empty_user_data in
  let out :=
    run (RateLimit 1 10) (idle "ping")
        (with_user {| user_id := 7; username := None |} None)
        (plain_runtime (Returned {| status := "member" |}) 60) ud in
  out.1.1 = Returned None ∧ replies out.2 = [throttled_text]
  ∧ history "ping" out.1.2 = recent 60 10 (history "ping" ud).
Proof.
  intros ud out.
  apply (rate_limit_spec 1 10 (idle "ping") {| user_id := 7; username := None |}
           None (plain_runtime (Returned {| status := "member" |}) 60) ud
           (idle_keeps_history "ping")).
  vm_compute. intros Hgt. discriminate Hgt.
Defined.

(** X12. A budget of zero calls, or a negative one, shuts the handler off:
    with a caller in the update every call is denied with the throttling
    reply, whatever the history and the clock. *)
Theorem rate_limit_zero_budget (max_calls period : Z) (func : Handler)
    (user : User) (chat : option Chat) (rt : Runtime) (ud : UserData) :
  max_calls ≤ 0 →
  let out := run (RateLimit max_calls period) func (with_user user chat) rt ud in
  out.1.1 = Returned None ∧ invoked out.2 = false
  ∧ replies out.2 = [throttled_text].
Proof.
  intros Hn out. subst out. rewrite rate_limit_run.
  rewrite bool_decide_eq_true_2 by lia. done.
Qed.

Lemma rate_limit_zero_budget_witness :
  let out :=
    run (RateLimit 0 60) (idle "ping")
        (with_user {| user_id := 7; username := None |} None)
        (plain_runtime (Returned {| status := "member" |}) 0) empty_user_data in
  out.1.1 = Returned None ∧ invoked out.2 = false
  ∧ replies out.2 = [throttled_text].
Proof.
  intros out.
  apply (rate_limit_zero_budget 0 60 (idle "ping")
           {| user_id := 7; username := None |} None
           (plain_runtime (Returned {| status := "member" |}) 0)
           empty_user_data).
  lia.
Defined.

Lemma recent_nonpositive_period (now : Q) (period : Z) (h : list Q) :
  period ≤ 0 → Forall (λ t, (t <= now)%Q) h → recent now period h = [].
Proof.
  intros Hp Hall. unfold recent.
  assert (Hq : (inject_Z period <= 0)%Q).
  { unfold Qle. cbn. lia. }
  induction Hall as [|t h Ht Hall IH]; [reflexivity|].
  cbn [List.filter]. rewrite IH.
  assert (Qltb (now - t) (inject_Z period) = false) as ->; [|reflexivity].
  apply Qltb_ge. set (q := inject_Z period) in *. lra.
Qed.

(** X13. A period of zero seconds, or a negative one, never throttles: with
    a positive budget, a caller in the update and no recorded timestamp
    ahead of the clock, the whole history is pruned, the handler is invoked
    and the history is left with this call alone. *)
Theorem rate_limit_nonpositive_period (max_calls period : Z) (func : Handler)
    (user : User) (chat : option Chat) (rt : Runtime) (ud : UserData) :
  keeps_history func →
  0 < max_calls → period ≤ 0 →
  Forall (λ t, (t <= time_time rt)%Q) (history (h_name func) ud) →
  let out := run (RateLimit max_calls period) func (with_user user chat) rt ud in
  invoked out.2 = true ∧ history (h_name func) out.1.2 = [time_time rt].
Proof.
  intros Hkeep Hn Hp Hpast out.
  pose proof (rate_limit_step max_calls period func user chat rt ud Hkeep) as Hstep.
  cbv zeta in Hstep. fold out in Hstep.
  rewrite (recent_nonpositive_period _ _ _ Hp Hpast) in Hstep.
  cbn [length] in Hstep. rewrite bool_decide_eq_false_2 in Hstep by lia.
  exact Hstep.
Qed.

Lemma rate_limit_nonpositive_period_witness :
  let ud := set_rate_limits {[ "ping" := [1%Q; 2%Q; 3%Q] ]} empty_user_data in
  let out :=
    run (RateLimit 1 0) (idle "ping")
        (with_user {| user_id := 7; username := None |} None)
        (plain_runtime (Returned {| status := "member" |}) 3) ud in
  invoked out.2 = true ∧ history "ping" out.1.2 = [3%Q].
Proof.
  intros ud out.
  apply (rate_limit_nonpositive_period 1 0 (idle "ping")
           {| user_id := 7; username := None |} None
           (plain_runtime (Returned {| status := "member" |}) 3) ud
           (idle_keeps_history "ping")); [lia|lia|].
  repeat constructor; cbn; lra.
Defined.

Lemma history_set_ne (name name' : string) (h : list Q) (ud : UserData) :
  name' ≠ name →
  history name' (set_rate_limits (<[name := h]> (default ∅ (rate_limits ud))) ud)
  = history name' ud.
Proof.
  intros Hne. unfold history; cbn. rewrite lookup_insert_ne by done.
  destruct (rate_limits ud); cbn; [reflexivity|]. by rewrite lookup_empty.
Qed.

(** X14. The rate limiter writes one entry only: with a caller in the update
    and a handler that gives [user_data] back unchanged, the stored
    authentication, permissions and access level are as before, and so is
    the history of every other action. *)
Theorem rate_limit_isolation (max_calls period : Z) (func : Handler)
    (user : User) (chat : option Chat) (rt : Runtime) (ud : UserData) :
  leaves_user_data func →
  let out := run (RateLimit max_calls period) func (with_user user chat) rt ud in
  authenticated_user_id out.1.2 = authenticated_user_id ud
  ∧ authenticated_user_username out.1.2 = authenticated_user_username ud
  ∧ permissions out.1.2 = permissions ud
  ∧ access_level out.1.2 = access_level ud
  ∧ ∀ name', name' ≠ h_name func → history name' out.1.2 = history name' ud.
Proof.
  intros Hleaves out. subst out. rewrite rate_limit_run.
  case_bool_decide as Hfull.
  - cbn [fst snd]. repeat split. intros name' Hne. by apply history_set_ne.
  - match goal with
    | |- context [set_rate_limits ?m ud] =>
        pose proof (Hleaves (with_user user chat) rt (set_rate_limits m ud)) as Hl
    end.
    unfold_monad. split_handler func; cbn in Hl |- *; subst;
      (repeat split; intros name' Hne; by apply history_set_ne).
Qed.

Lemma rate_limit_isolation_witness :
  let ud := set_rate_limits {[ "pong" := [1%Q] ]} empty_user_data in
  let out :=
    run (RateLimit 3 60) (idle "ping")
        (with_user {| user_id := 7; username := None |} None)
        (plain_runtime (Returned {| status := "member" |}) 5) ud in
  authenticated_user_id out.1.2 = authenticated_user_id ud
  ∧ authenticated_user_username out.1.2 = authenticated_user_username ud
  ∧ permissions out.1.2 = permissions ud
  ∧ access_level out.1.2 = access_level ud
  ∧ ∀ name', name' ≠ "ping" → history name' out.1.2 = history name' ud.
Proof.
  intros ud out.
  apply (rate_limit_isolation 3 60 (idle "ping")
           {| user_id := 7; username := None |} None
           (plain_runtime (Returned {| status := "member" |}) 5) ud).
  intros update rt ud'. reflexivity.
Defined.

(** ** What a guard leaves behind *)

(** X15. A run in which the handler is not invoked leaves the stored
    authentication, permissions and access level as they were; for every
    guard but the rate limiter it leaves the whole [user_data] as it was
    (the rate limiter writes the pruned history even when it denies). *)
Theorem denial_leaves_user_data (g : Guard) (func : Handler) (update : Update)
    (rt : Runtime) (ud : UserData) :
  let out := run g func update rt ud in
  invoked out.2 = false →
  authenticated_user_id out.1.2 = authenticated_user_id ud
  ∧ authenticated_user_username out.1.2 = authenticated_user_username ud
  ∧ permissions out.1.2 = permissions ud
  ∧ access_level out.1.2 = access_level ud
  ∧ ((∀ n p, g ≠ RateLimit n p) → out.1.2 = ud).
Proof.
  cbv zeta.
  guard_cases g update; try split_handler func; cbn; intros Hinv;
    try discriminate Hinv; repeat split; try done.
  all: intros Hg; exfalso; by eapply Hg.
Qed.

Lemma denial_leaves_user_data_witness :
  let ud := {| authenticated_user_id := Some 7;
               authenticated_user_username := Some None;
               permissions := Some {[ "mute" ]};
               access_level := Some 1;
               rate_limits := None |} in
  let out :=
    run (Permission "ban") (idle "ban")
        (with_user {| user_id := 7; username := None |} None)
        (plain_runtime (Returned {| status := "member" |}) 0) ud in
  authenticated_user_id out.1.2 = authenticated_user_id ud
  ∧ authenticated_user_username out.1.2 = authenticated_user_username ud
  ∧ permissions out.1.2 = permissions ud
  ∧ access_level out.1.2 = access_level ud
  ∧ ((∀ n p, Permission "ban" ≠ RateLimit n p) → out.1.2 = ud).
Proof.
  intros ud out.
  apply (denial_leaves_user_data (Permission "ban") (idle "ban")
           (with_user {| user_id := 7; username := None |} None)
           (plain_runtime (Returned {| status := "member" |}) 0) ud).
  vm_compute. reflexivity.
Defined.

(** X16. What a guard does by itself, seen on the handler that does
    nothing: it makes at most one membership lookup, and only the admin
    guard, the group-admin guard and the owner guard without an owner id
    make one; it sends at most one reply, and none when it invokes the
    handler; it invokes the handler at most once. *)
Theorem guard_own_trace (g : Guard) (name : string) (update : Update)
    (rt : Runtime) (ud : UserData) :
  let tr := (run g (idle name) update rt ud).2 in
  (length (List.filter is_lookup tr) ≤ 1)%nat
  ∧ (looked_up tr = true → g = Admin ∨ g = GroupAdmin ∨ g = Owner None)
  ∧ (length (replies tr) ≤ 1)%nat
  ∧ (invoked tr = true → replies tr = [])
  ∧ (length (List.filter is_call tr) ≤ 1)%nat.
Proof.
  cbv zeta.
  guard_cases g update; cbn; repeat split; try lia; try done; eauto.
Qed.

(** X17. [log_action] makes no test of its own.  With no caller in the
    update it raises before anything is logged and before the handler is
    invoked; with a caller it writes one log line and invokes the handler,
    whether or not the update has a chat. *)
Theorem log_action_spec (action_type : string) (func : Handler)
    (update : Update) (rt : Runtime) (ud : UserData) :
  let out := run (LogAction action_type) func update rt ud in
  (effective_user update = None →
   out = (Raised (none_has_no_attribute "id"), ud, []))
  ∧ (is_Some (effective_user update) →
     invoked out.2 = true
     ∧ ∃ line, out = (logger_info line;; call func update) rt ud).
Proof.
  intros out. subst out. unfold run.
  cbn [decorate log_action h_body].
  destruct update as [[user|] chat]; cbn [effective_user effective_chat].
  - split; [done|]. intros _. unfold_monad. split.
    + split_handler func; reflexivity.
    + eexists. split_handler func; reflexivity.
  - split; [done|]. intros [? [=]].
Qed.

(** ** The keyboard builder *)

Lemma no_rows_snoc (init : list (list InlineKeyboardButton))
    (r : list InlineKeyboardButton) :
  no_rows (init ++ [r]) = false.
Proof. by destruct init. Qed.

Lemma last_row_filled_snoc (init : list (list InlineKeyboardButton))
    (r : list InlineKeyboardButton) :
  last_row_filled (init ++ [r]) = bool_decide (r ≠ []).
Proof.
  unfold last_row_filled. rewrite last_snoc. cbn [default].
  apply bool_decide_ext. destruct r; cbn; split; (done || lia).
Qed.

Lemma append_to_last_row_snoc (init : list (list InlineKeyboardButton))
    (r : list InlineKeyboardButton) (b : InlineKeyboardButton) :
  append_to_last_row (init ++ [r]) b = init ++ [r ++ [b]].
Proof.
  unfold append_to_last_row. rewrite length_app. cbn.
  replace (Nat.pred (length init + 1)) with (length init + 0)%nat by lia.
  by rewrite alter_app_r.
Qed.

Lemma add_button_first (t : string) (c u s : option string)
    (self : KeyboardBuilder) :
  buttons self = [] →
  buttons (add_button t c u s self) = [[mk_button t c u s]].
Proof. intros H. unfold add_button. rewrite H. reflexivity. Qed.

Lemma add_button_after_filled (t : string) (c u s : option string)
    (self : KeyboardBuilder) (init : list (list InlineKeyboardButton))
    (r : list InlineKeyboardButton) :
  buttons self = init ++ [r] → r ≠ [] →
  buttons (add_button t c u s self) = init ++ [r; [mk_button t c u s]].
Proof.
  intros H Hr. unfold add_button. rewrite H, no_rows_snoc, last_row_filled_snoc.
  rewrite bool_decide_eq_true_2 by done. cbn [orb buttons].
  rewrite <- app_assoc. cbn [app].
  change (init ++ [r; []]) with (init ++ [r] ++ [[]]).
  rewrite app_assoc, append_to_last_row_snoc, <- app_assoc. reflexivity.
Qed.

Lemma add_button_after_empty (t : string) (c u s : option string)
    (self : KeyboardBuilder) (init : list (list InlineKeyboardButton)) :
  buttons self = init ++ [[]] →
  buttons (add_button t c u s self) = init ++ [[mk_button t c u s]].
Proof.
  intros H. unfold add_button. rewrite H, no_rows_snoc, last_row_filled_snoc.
  rewrite bool_decide_eq_false_2 by (intros K; by apply K). cbn [orb buttons].
  rewrite append_to_last_row_snoc. reflexivity.
Qed.

Lemma row_first (self : KeyboardBuilder) : buttons self = [] → row self = self.
Proof. intros H. unfold row. by rewrite H. Qed.

Lemma row_after_filled (self : KeyboardBuilder)
    (init : list (list InlineKeyboardButton)) (r : list InlineKeyboardButton) :
  buttons self = init ++ [r] → r ≠ [] →
  buttons (row self) = init ++ [r; []].
Proof.
  intros H Hr. unfold row. rewrite H, no_rows_snoc, last_row_filled_snoc.
  rewrite bool_decide_eq_true_2 by done. cbn. by rewrite <- app_assoc.
Qed.

Lemma row_after_empty (self : KeyboardBuilder)
    (init : list (list InlineKeyboardButton)) :
  buttons self = init ++ [[]] → row self = self.
Proof.
  intros H. unfold row. rewrite H, no_rows_snoc, last_row_filled_snoc.
  by rewrite bool_decide_eq_false_2 by (intros K; by apply K).
Qed.

(** A list of rows is empty, or ends with an empty row, or ends with a row
    that has a button. *)
Lemma rows_cases (rows : list (list InlineKeyboardButton)) :
  rows = [] ∨ (∃ init, rows = init ++ [[]])
  ∨ (∃ init r, rows = init ++ [r] ∧ r ≠ []).
Proof.
  destruct (last rows) as [r|] eqn:E.
  - apply last_Some in E as [init ->]. destruct r as [|b r].
    + right; left. eauto.
    + right; right. exists init, (b :: r). done.
  - left. by apply last_None.
Qed.

(** X18. [add_button] always leaves the new button alone on the last row:
    it fills a last row that is empty, and otherwise starts a row of its
    own; it never joins a row that has a button.  The buttons already in the
    builder stay, in their order. *)
Theorem add_button_spec (t : string) (c u s : option string)
    (self : KeyboardBuilder) :
  let b := mk_button t c u s in
  let self' := add_button t c u s self in
  last (buttons self') = Some [b]
  ∧ concat (buttons self') = concat (buttons self) ++ [b]
  ∧ (∀ init, buttons self = init ++ [[]] → buttons self' = init ++ [[b]])
  ∧ (last (buttons self) ≠ Some [] → buttons self' = buttons self ++ [[b]]).
Proof.
  intros b self'. subst b self'.
  destruct (rows_cases (buttons self)) as [E|[[init E]|(init & r & E & Hr)]].
  - rewrite (add_button_first _ _ _ _ _ E), E. repeat split; try done.
    intros init' H. by destruct init'.
  - rewrite (add_button_after_empty _ _ _ _ _ _ E), E.
    rewrite last_snoc, !concat_app. cbn. rewrite !app_nil_r.
    repeat split; try done.
    + intros init' H. by apply app_inj_tail in H as [-> _].
    + intros H. exfalso. apply H. apply last_snoc.
  - rewrite (add_button_after_filled _ _ _ _ _ _ _ E Hr), E.
    change (init ++ [r; [mk_button t c u s]])
      with (init ++ [r] ++ [[mk_button t c u s]]).
    rewrite !app_assoc, last_snoc, !concat_app. cbn. rewrite !app_nil_r.
    repeat split; try done.
    intros init' H. apply app_inj_tail in H as [_ ->]. done.
Qed.

(** X19. [row] is idempotent, does nothing to a builder without rows,
    never adds or moves a button, and on a builder with rows leaves an
    empty last row. *)
Theorem row_spec (self : KeyboardBuilder) :
  row (row self) = row self
  ∧ (buttons self = [] → row self = self)
  ∧ concat (buttons (row self)) = concat (buttons self)
  ∧ (buttons self ≠ [] → last (buttons (row self)) = Some []).
Proof.
  destruct (rows_cases (buttons self)) as [E|[[init E]|(init & r & E & Hr)]].
  - rewrite !(row_first _ E). done.
  - rewrite !(row_after_empty _ _ E), E, last_snoc. done.
  - pose proof (row_after_filled _ _ _ E Hr) as E'.
    change (init ++ [r; []]) with (init ++ [r] ++ [[]]) in E'.
    rewrite app_assoc in E'.
    rewrite (row_after_empty _ _ E'), E', E, last_snoc, !concat_app.
    cbn. rewrite !app_nil_r. repeat split; try done.
    intros H. by destruct init.
Qed.

Lemma single_rows_snoc (bs : list InlineKeyboardButton) (b : InlineKeyboardButton) :
  single_rows (bs ++ [b]) = single_rows bs ++ [[b]].
Proof. unfold single_rows. by rewrite fmap_app. Qed.

Lemma add_button_laid_out (t : string) (c u s : option string)
    (self : KeyboardBuilder) (bs : list InlineKeyboardButton) :
  laid_out bs (buttons self) →
  buttons (add_button t c u s self) = single_rows (bs ++ [mk_button t c u s]).
Proof.
  intros [E|E]; rewrite single_rows_snoc.
  - destruct bs as [|x bs] using rev_ind.
    + by apply add_button_first.
    + rewrite single_rows_snoc in E |- *.
      rewrite (add_button_after_filled _ _ _ _ _ _ _ E) by done.
      by rewrite <- app_assoc.
  - by apply add_button_after_empty.
Qed.

Lemma row_after_buttons (self : KeyboardBuilder)
    (bs : list InlineKeyboardButton) :
  buttons self = single_rows bs → bs ≠ [] →
  buttons (row self) = single_rows bs ++ [[]].
Proof.
  intros E Hbs. destruct bs as [|x bs _] using rev_ind; [done|].
  rewrite single_rows_snoc in E |- *.
  rewrite (row_after_filled _ _ _ E) by done. by rewrite <- app_assoc.
Qed.

Lemma row_laid_out (self : KeyboardBuilder) (bs : list InlineKeyboardButton) :
  laid_out bs (buttons self) → laid_out bs (buttons (row self)).
Proof.
  intros [E|E].
  - destruct bs as [|x bs _] using rev_ind.
    + rewrite (row_first self E). by left.
    + right. apply row_after_buttons; [done|]. by destruct bs.
  - rewrite (row_after_empty _ _ E). by right.
Qed.

Lemma button_eta (b : InlineKeyboardButton) :
  mk_button (text b) (callback_data b) (url b) (switch_inline_query b) = b.
Proof. by destruct b. Qed.

Lemma ops_laid_out (ops : list BuilderOp) (self : KeyboardBuilder)
    (bs : list InlineKeyboardButton) :
  forallb single_button_op ops = true →
  laid_out bs (buttons self) →
  laid_out (added bs ops) (buttons (foldl apply_op self ops)).
Proof.
  revert self bs. induction ops as [|op ops IH]; intros self bs Hops Hlay.
  - exact Hlay.
  - cbn in Hops. apply andb_true_iff in Hops as [Hop Hops].
    destruct op as [b|d| |]; try discriminate Hop; cbn [foldl added apply_op].
    + apply IH; [done|]. left.
      rewrite (add_button_laid_out _ _ _ _ _ _ Hlay). by rewrite button_eta.
    + apply IH; [done|]. by apply row_laid_out.
    + apply IH; [done|]. by left.
Qed.

(** X20. After any sequence of [add_button], [row] and [clear] on a new
    builder, the rows are one row per button added since the last [clear],
    in the order of the calls, followed by at most one empty row: however
    the calls of [row] are placed, no row ever holds two buttons. *)
Theorem single_button_ops_layout (ops : list BuilderOp) :
  forallb single_button_op ops = true →
  let rows := inline_keyboard (build (foldl apply_op new_builder ops)) in
  rows = single_rows (added [] ops) ∨ rows = single_rows (added [] ops) ++ [[]].
Proof.
  intros Hops rows. subst rows. cbn [build inline_keyboard].
  apply (ops_laid_out ops new_builder [] Hops). by left.
Qed.

Lemma single_button_ops_layout_witness :
  let a := callback_button "A" "a" in
  let b := callback_button "B" "b" in
  let c := callback_button "C" "c" in
  let ops := [AddButton a; AddButton b; NewRow; NewRow; AddButton c; NewRow] in
  let rows := inline_keyboard (build (foldl apply_op new_builder ops)) in
  rows = single_rows (added [] ops) ∨ rows = single_rows (added [] ops) ++ [[]].
Proof.
  intros a b c ops.
  apply (single_button_ops_layout ops). reflexivity.
Defined.

Lemma add_button_row_rows (buttons_data : list (gmap string string))
    (self : KeyboardBuilder) :
  buttons (add_button_row buttons_data self)
  = match buttons_data with
    | [] => buttons self
    | _ => buttons self ++ [button_of_dict <$> buttons_data]
    end.
Proof.
  unfold add_button_row.
  assert (Hfold : ∀ (l : list (gmap string string)) acc,
             foldl (λ row btn_data, row ++ [button_of_dict btn_data]) acc l
             = acc ++ (button_of_dict <$> l)).
  { induction l as [|d l IH]; intros acc; cbn; [by rewrite app_nil_r|].
    rewrite IH, <- app_assoc. reflexivity. }
  rewrite Hfold. cbn [app]. destruct buttons_data as [|d l]; reflexivity.
Qed.

(** X21. [add_button_row] on an empty list leaves the builder as it is;
    otherwise it appends one row, with one button per dictionary in order,
    after the rows that are there, an empty last row included.  A missing
    ["text"] gives the empty text, any other missing key gives [None]. *)
Theorem add_button_row_spec (buttons_data : list (gmap string string))
    (self : KeyboardBuilder) :
  (buttons_data = [] → add_button_row buttons_data self = self)
  ∧ (buttons_data ≠ [] →
     buttons (add_button_row buttons_data self)
     = buttons self ++ [button_of_dict <$> buttons_data])
  ∧ button_of_dict ∅ = mk_button "" None None None.
Proof.
  split; [|split].
  - intros ->. reflexivity.
  - intros Hne. rewrite add_button_row_rows. by destruct buttons_data.
  - reflexivity.
Qed.

Lemma ops_concat (ops : list BuilderOp) (self : KeyboardBuilder) :
  concat (buttons (foldl apply_op self ops))
  = added (concat (buttons self)) ops.
Proof.
  revert self. induction ops as [|op ops IH]; intros self; [reflexivity|].
  cbn [foldl added]. rewrite IH. destruct op as [b|d| |]; cbn [apply_op].
  - f_equal.
    destruct (rows_cases (buttons self)) as [E|[[init E]|(init & r & E & Hr)]].
    + rewrite (add_button_first _ _ _ _ _ E), E, button_eta. cbn. done.
    + rewrite (add_button_after_empty _ _ _ _ _ _ E), E, button_eta.
      rewrite !concat_app. cbn. by rewrite !app_nil_r.
    + rewrite (add_button_after_filled _ _ _ _ _ _ _ E Hr), E, button_eta.
      change (init ++ [r; [b]]) with (init ++ [r] ++ [[b]]).
      rewrite app_assoc, !concat_app. cbn. by rewrite !app_nil_r.
  - f_equal. rewrite add_button_row_rows. destruct d as [|d0 d]; cbn.
    + by rewrite app_nil_r.
    + rewrite concat_app. cbn. by rewrite app_nil_r.
  - f_equal.
    destruct (rows_cases (buttons self)) as [E|[[init E]|(init & r & E & Hr)]].
    + by rewrite (row_first _ E).
    + by rewrite (row_after_empty _ _ E).
    + rewrite (row_after_filled _ _ _ E Hr), E.
      change (init ++ [r; []]) with (init ++ [r] ++ [[]]).
      rewrite app_assoc, !concat_app. cbn. by rewrite !app_nil_r.
  - reflexivity.
Qed.

(** X22. Whatever the sequence of builder calls, the keyboard that is
    built holds, read row by row, exactly the buttons added since the last
    [clear], in the order they were added. *)
Theorem builder_keeps_order (ops : list BuilderOp) :
  concat (inline_keyboard (build (foldl apply_op new_builder ops)))
  = added [] ops.
Proof. cbn [build inline_keyboard]. apply ops_concat. Qed.

(** ** The keyboard factories *)

Lemma multi_action_loop_rows (columns : Z) (actions : list (gmap string string)) :
  columns ≠ 0 →
  ∀ (i : Z) (builder : KeyboardBuilder) (bs : list InlineKeyboardButton),
    laid_out bs (buttons builder) →
    ∃ builder',
      multi_action_loop columns i actions builder = Returned builder'
      ∧ match actions with
        | [] => builder' = builder
        | _ =>
            buttons builder'
            = single_rows (bs ++ (action_button <$> actions))
              ++ (if bool_decide ((i + Z.of_nat (length actions)) `mod` columns = 0)
                  then [[]] else [])
        end.
Proof.
  intros Hcol. induction actions as [|a rest IH]; intros i builder bs Hlay.
  - exists builder. done.
  - cbn [multi_action_loop]. rewrite (bool_decide_eq_false_2 _ Hcol).
    set (b0 := add_button _ _ _ _ builder).
    assert (E0 : buttons b0 = single_rows (bs ++ [action_button a])).
    { apply add_button_laid_out, Hlay. }
    set (b1 := if bool_decide ((i + 1) `mod` columns = 0) then row b0 else b0).
    assert (E1 : buttons b1
                 = single_rows (bs ++ [action_button a])
                   ++ (if bool_decide ((i + 1) `mod` columns = 0)
                       then [[]] else [])).
    { subst b1. case_bool_decide.
      - apply row_after_buttons; [exact E0|]. by destruct bs.
      - by rewrite app_nil_r. }
    assert (Hlay1 : laid_out (bs ++ [action_button a]) (buttons b1)).
    { rewrite E1. case_bool_decide; [by right|left; by rewrite app_nil_r]. }
    destruct (IH (i + 1) b1 (bs ++ [action_button a]) Hlay1) as (b' & Hrun & Hb').
    exists b'. split; [exact Hrun|].
    destruct rest as [|a' rest'].
    + subst b'. rewrite E1. reflexivity.
    + rewrite Hb'. rewrite <- app_assoc. cbn [fmap list_fmap app length].
      replace (i + 1 + Z.of_nat (S (length rest')))
        with (i + Z.of_nat (S (S (length rest')))) by lia.
      reflexivity.
Qed.

(** X23. [create_multi_action_keyboard] with a number of columns other
    than 0 returns a keyboard with one row per action, in order, each row
    holding that action's button alone, whatever the number of columns; when
    the number of actions is a non-zero multiple of the number of columns
    an empty row follows.  A missing ["text"] or ["callback_data"] gives
    the empty string. *)
Theorem create_multi_action_keyboard_spec (actions : list (gmap string string))
    (columns : Z) :
  columns ≠ 0 →
  create_multi_action_keyboard actions columns
  = Returned
      {| inline_keyboard :=
           single_rows (action_button <$> actions)
           ++ (if bool_decide (actions ≠ []
                               ∧ Z.of_nat (length actions) `mod` columns = 0)
               then [[]] else []) |}.
Proof.
  intros Hcol. unfold create_multi_action_keyboard.
  destruct (multi_action_loop_rows columns actions Hcol 0 new_builder [])
    as (b' & -> & Hb'); [by left|].
  destruct actions as [|a rest].
  - subst b'. reflexivity.
  - unfold build. rewrite Hb'. cbn [app]. rewrite Z.add_0_l.
    do 2 f_equal.
    rewrite (bool_decide_ext
               (a :: rest ≠ [] ∧ Z.of_nat (length (a :: rest)) `mod` columns = 0)
               (Z.of_nat (length (a :: rest)) `mod` columns = 0));
      [reflexivity|]. split; [tauto|done].
Qed.

Lemma create_multi_action_keyboard_spec_witness :
  create_multi_action_keyboard
    [text_and_callback "Ban" "ban"; text_and_callback "Mute" "mute"] 2
  = Returned
      {| inline_keyboard :=
           single_rows (action_button
                          <$> [text_and_callback "Ban" "ban";
                               text_and_callback "Mute" "mute"])
           ++ (if bool_decide
                    ([text_and_callback "Ban" "ban";
                      text_and_callback "Mute" "mute"] ≠ []
                     ∧ Z.of_nat 2 `mod` 2 = 0)
               then [[]] else []) |}.
Proof.
  apply (create_multi_action_keyboard_spec
           [text_and_callback "Ban" "ban"; text_and_callback "Mute" "mute"] 2).
  lia.
Defined.

(** X24. With 0 columns [create_multi_action_keyboard] raises
    [ZeroDivisionError] as soon as there is an action, and returns the
    empty keyboard when there is none. *)
Theorem create_multi_action_keyboard_zero_columns
    (actions : list (gmap string string)) :
  create_multi_action_keyboard actions 0
  = match actions with
    | [] => Returned {| inline_keyboard := [] |}
    | _ => Raised zero_division
    end.
Proof. destruct actions; reflexivity. Qed.

Lemma group_loop_rows (groups : list Group) :
  ∀ (builder : KeyboardBuilder) (bs : list InlineKeyboardButton),
    laid_out bs (buttons builder) →
    laid_out (bs ++ (group_button <$> groups))
      (buttons
         (foldl (λ builder group,
                   let builder :=
                     add_callback_button
                       (default "Unknown" (group_name group))
                       ("group_" +:+ default "" (str_id <$> group_id group))
                       builder in
                   row builder)
                builder groups)).
Proof.
  induction groups as [|g groups IH]; intros builder bs Hlay.
  - cbn. by rewrite app_nil_r.
  - cbn [foldl fmap list_fmap].
    replace (bs ++ group_button g :: (group_button <$> groups))
      with ((bs ++ [group_button g]) ++ (group_button <$> groups))
      by (by rewrite <- app_assoc).
    apply IH. apply row_laid_out. left.
    unfold add_callback_button. apply add_button_laid_out, Hlay.
Qed.

(** X25. [create_group_selection_keyboard] returns one row per group, in
    order, each with that group's button alone, and a last row with the
    Back button: no empty row, even for no group at all.  A group without a
    name is shown as Unknown; a group without an id gets the callback data
    [group_]. *)
Theorem create_group_selection_keyboard_spec (groups : list Group) :
  inline_keyboard (create_group_selection_keyboard groups)
  = single_rows ((group_button <$> groups)
                 ++ [callback_button "⬅️ Back" "back_to_main"])
  ∧ group_button {| group_id := None; group_name := None |}
    = callback_button "Unknown" "group_".
Proof.
  split; [|reflexivity].
  unfold create_group_selection_keyboard. cbv zeta. cbn [build inline_keyboard].
  unfold add_callback_button at 1.
  apply add_button_laid_out.
  apply (group_loop_rows groups new_builder []). by left.
Qed.

Lemma button_of_text_and_callback (t data : string) :
  button_of_dict (text_and_callback t data) = callback_button t data.
Proof.
  unfold button_of_dict, text_and_callback, callback_button, mk_button.
  rewrite lookup_insert_eq.
  rewrite !lookup_insert_ne by done. rewrite lookup_insert_eq.
  rewrite !lookup_insert_ne by done. rewrite !lookup_empty. reflexivity.
Qed.

(** X26. [create_pagination_keyboard] returns a single row: the Previous
    button iff the page is above 1, then the page indicator, then the Next
    button iff the page is below the number of pages; so one to three
    buttons, and the indicator alone when neither holds. *)
Theorem create_pagination_keyboard_spec (page total_pages : Z)
    (base_callback : string) :
  inline_keyboard (create_pagination_keyboard page total_pages base_callback)
  = [ (if bool_decide (1 < page)
       then [callback_button "⬅️ Previous" (base_callback +:+ "_prev")]
       else [])
      ++ [callback_button
            ("📄 " +:+ str_int page +:+ "/" +:+ str_int total_pages)
            (base_callback +:+ "_info")]
      ++ (if bool_decide (page < total_pages)
          then [callback_button "Next ➡️" (base_callback +:+ "_next")]
          else []) ].
Proof.
  unfold create_pagination_keyboard. cbv zeta. cbn [build inline_keyboard].
  rewrite add_button_row_rows.
  do 2 case_bool_decide; cbn [app fmap list_fmap new_builder buttons];
    rewrite !button_of_text_and_callback; reflexivity.
Qed.

(** X27. The factories that place their buttons with [add_button] return
    one button per row, whatever calls of [row] stand between them: the
    member keyboard has five rows, the confirmation and the yes/no keyboard
    two, the main menu four, the settings menu five.  The callback data of
    the member keyboard carry the user id; the confirmation keyboard does
    not depend on the action it is given. *)
Theorem factory_layouts (user_id_ : Z) (action confirm cancel prefix back : string) :
  inline_keyboard (create_member_action_keyboard user_id_)
  = single_rows
      [callback_button "🚫 Kick" ("kick_" +:+ str_int user_id_);
       callback_button "🔇 Mute" ("mute_" +:+ str_int user_id_);
       callback_button "📋 Info" ("info_" +:+ str_int user_id_);
       callback_button "⚠️ Warn" ("warn_" +:+ str_int user_id_);
       callback_button "⬅️ Back" "back_to_members"]
  ∧ inline_keyboard (create_confirmation_keyboard action confirm cancel)
    = single_rows [callback_button "✅ Confirm" confirm;
                   callback_button "❌ Cancel" cancel]
  ∧ inline_keyboard (create_yes_no_keyboard prefix)
    = single_rows [callback_button "✅ Yes" (prefix +:+ "_yes");
                   callback_button "❌ No" (prefix +:+ "_no")]
  ∧ inline_keyboard (create_back_button back)
    = single_rows [callback_button "⬅️ Back" back]
  ∧ length (inline_keyboard create_main_menu_keyboard) = 4%nat
  ∧ Forall (λ r, length r = 1%nat) (inline_keyboard create_main_menu_keyboard)
  ∧ length (inline_keyboard create_settings_keyboard) = 5%nat
  ∧ Forall (λ r, length r = 1%nat) (inline_keyboard create_settings_keyboard).
Proof.
  repeat split; try reflexivity; repeat constructor.
Qed.

(** ** Start-up *)

(** X28. [main] fails fast iff the token is not set or is the empty
    string: it then logs one error and raises [ValueError], and nothing is
    registered.  Otherwise it starts polling with that token, the commands
    start, help and info in this order, for messages and edited messages. *)
Theorem main_spec (getenv : string → option string) :
  let out := main getenv in
  ((∃ e, out.1 = Raised e)
   ↔ getenv "TELEGRAM_BOT_TOKEN" = None ∨ getenv "TELEGRAM_BOT_TOKEN" = Some "")
  ∧ (∀ e, out.1 = Raised e →
       exn_class e = "ValueError" ∧ out.2 = [ELog ERROR token_not_set])
  ∧ (∀ t, getenv "TELEGRAM_BOT_TOKEN" = Some t → t ≠ "" →
       ∃ p, out = (Returned p, [ELog INFO "Bot started successfully!"])
            ∧ token p = t
            ∧ command <$> handlers p = ["start"; "help"; "info"]
            ∧ h_name ∘ callback <$> handlers p = ["start"; "help_command"; "info"]
            ∧ allowed_updates p = ["message"; "edited_message"]).
Proof.
  intros out. subst out. unfold main.
  destruct (getenv "TELEGRAM_BOT_TOKEN") as [t|]; [case_bool_decide as Ht|].
  - subst t. cbn. split; [split; eauto|]. split.
    + intros e [= <-]. done.
    + intros t [= <-] Hne. done.
  - cbn. split; [split|].
    + intros [e [=]].
    + intros [[=]|[= ->]]. done.
    + split; [intros e [=]|]. intros t' [= <-] _. eexists. repeat split.
  - cbn. split; [split; eauto|]. split.
    + intros e [= <-]. done.
    + intros t [=].
Qed.

(** ** Edge cases of the permission and level guards *)

(** X29. [require_permissions] with an empty list, a caller in the
    update: when all are required the handler is always invoked, whatever
    the caller's permissions; when any one is required the call is always
    denied, and the reply lists nothing. *)
Theorem require_permissions_empty_list (func : Handler) (user : User)
    (chat : option Chat) (rt : Runtime) (ud : UserData) :
  let update := with_user user chat in
  invoked (run (Permissions [] true) func update rt ud).2 = true
  ∧ run (Permissions [] false) func update rt ud
    = (Returned None, ud,
       [ELog WARNING ("User " +:+ str_int (user_id user)
                      +:+ " permission check failed: Requires one of: ");
        EReply "❌ Requires one of: " (Some "Markdown")]).
Proof.
  intros update. subst update. unfold run.
  cbn [decorate require_permissions h_body with_user effective_user].
  unfold_monad. cbn [list_to_set foldr].
  rewrite (bool_decide_eq_true_2 (∅ ⊆ default ∅ (permissions ud)))
    by apply empty_subseteq.
  rewrite (bool_decide_eq_false_2 (∅ ∩ default ∅ (permissions ud) ≠ ∅))
    by (intros H; apply H; apply (left_absorb_L ∅ (∩))).
  cbn [negb]. split; [|reflexivity].
  split_handler func; reflexivity.
Qed.

Lemma level_names_outside (L : Z) :
  (L < 0 ∨ 3 < L) → level_names !! L = None.
Proof.
  intros HL. unfold level_names.
  rewrite !lookup_insert_ne by lia. apply lookup_empty.
Qed.

(** X30. [require_access_level] outside the table of levels, with a caller
    in the update: a required level below 0 or above 3 that the caller's
    stored level does not reach is denied with the label Unknown; a
    required level of 0 or less lets every caller without a stored level
    through. *)
Theorem require_access_level_outside_table (L : Z) (func : Handler)
    (user : User) (chat : option Chat) (rt : Runtime) (ud : UserData) :
  let U := default 0 (access_level ud) in
  let out := run (AccessLevel L) func (with_user user chat) rt ud in
  (L < 0 ∨ 3 < L → U < L →
   out.1 = (Returned None, ud)
   ∧ replies out.2 = ["❌ This action requires Unknown access level."])
  ∧ (L ≤ 0 → access_level ud = None → invoked out.2 = true).
Proof.
  intros U out. subst out.
  unfold run; cbn [decorate require_access_level h_body with_user effective_user].
  fold U. unfold_monad. split.
  - intros HL HU. rewrite bool_decide_eq_true_2 by exact HU.
    rewrite (level_names_outside L HL). done.
  - intros HL Hnone. subst U. rewrite Hnone. cbn [default].
    rewrite bool_decide_eq_false_2 by lia.
    split_handler func; reflexivity.
Qed.

(** A required level of 4 against the highest level of the table. *)
Example require_access_level_four :
  replies (run (AccessLevel 4) (idle "settings")
               (with_user {| user_id := 7; username := None |} None)
               (plain_runtime (Returned {| status := "member" |}) 0)
               {| authenticated_user_id := None;
                  authenticated_user_username := None;
                  permissions := None;
                  access_level := Some 3;
                  rate_limits := None |}).2
  = ["❌ This action requires Unknown access level."].
Proof. reflexivity. Qed.
